(** * TrackTrack: the tracking-result visualiser ([3. Tracker/visualize.py])

  A shallow embedding of [visualize_tracking_results] and the properties
  of its frame/label rendering pipeline.

  The procedure calls into pandas, os, OpenCV and NumPy.  What those calls
  return is the input of the model, collected in the record [World]:
  - [pd.read_csv]  : the parsed log, or the exception raised, of which the
                     procedure catches two;
  - [os.listdir]   : the names found in the image directory, or the
                     exception raised, of which the procedure catches one;
  - [cv2.imread]   : a decoded image, or [None];
  - [np.random]    : the raw outputs of the process-wide generator;
  - [cv2.VideoWriter] and the final [os.path.exists]/[os.path.getsize]:
                     what is found on disk once the writer is released.
  The drawing calls [cv2.rectangle] and [cv2.putText] are recorded with
  their arguments; they raise when a coordinate does not fit 32 bits.
  Everything between those calls is translated statement by statement, and
  an exception the procedure does not catch ends the run where it is
  raised. *)

From Stdlib Require Import ZArith String Ascii List Lia Sorted Permutation.
From Stdlib Require Import DecimalString.
From Stdlib Require DecimalPos.
From stdpp Require Import base option list gmap strings.

Local Open Scope string_scope.
Local Open Scope Z_scope.
Set Warnings "-clear-no-such-hyp".

(** ** Python strings

  A Python [str] is represented by the bytes of its encoding in the file
  system encoding (UTF-8): an ASCII character is one byte below 128, and
  the bytes of any other character are all 128 or above.  [endswith],
  [rfind] and [splitext] look for ASCII characters only, so they give on
  the bytes what Python gives on the characters.

  What [int] makes of a string that is not pure ASCII (Unicode decimal
  digits and Unicode white space are accepted) depends on the Unicode
  database of the interpreter, which is no part of the program: it is a
  parameter of the model. *)

Class Interpreter := {
  (** [int(s)] for a string [s] with a character outside ASCII; [None]
      stands for [ValueError]. *)
  int_non_ascii : string -> option Z
}.

Module PyStr.

Definition chars (s : string) : list ascii := list_ascii_of_string s.
Definition of_chars (l : list ascii) : string := string_of_list_ascii l.

(** [s.endswith(suffix)] *)
Definition endswith (s suffix : string) : bool :=
  let cs := chars s in
  let cx := chars suffix in
  bool_decide (drop (length cs - length cx)%nat cs = cx).

(** [s.rfind(c)] for a single character: the highest index holding [c],
    or [-1]. *)
Fixpoint rfind_from (i : Z) (c : ascii) (l : list ascii) : Z :=
  match l with
  | [] => -1
  | a :: l' =>
      let r := rfind_from (i + 1) c l' in
      if bool_decide (0 <= r) then r
      else if Ascii.eqb a c then i else -1
  end.

Definition rfind (c : ascii) (s : string) : Z := rfind_from 0 c (chars s).

(** The slice [s[a:b]] for [0 <= a]. *)
Definition slice (a b : Z) (l : list ascii) : list ascii :=
  take (Z.to_nat (b - a)) (drop (Z.to_nat a) l).

(** The characters [int] skips around an ASCII literal: TAB, LF, VT, FF,
    CR and the blank. *)
Definition isspace (c : ascii) : bool :=
  let n := nat_of_ascii c in
  ((9 <=? n) && (n <=? 13) || (n =? 32))%nat.

Definition isdigit (c : ascii) : bool :=
  let n := nat_of_ascii c in ((48 <=? n) && (n <=? 57))%nat.

Definition digit_value (c : ascii) : Z := Z.of_nat (nat_of_ascii c) - 48.

Fixpoint lstrip (l : list ascii) : list ascii :=
  match l with
  | c :: l' => if isspace c then lstrip l' else l
  | [] => []
  end.

Definition strip (l : list ascii) : list ascii :=
  rev (lstrip (rev (lstrip l))).

(** The digits of a base-10 literal.  A single underscore may separate two
    digits; [after_digit] records that the previous character was a digit,
    so that a leading, doubled or trailing underscore is refused. *)
Fixpoint digits (acc : Z) (after_digit : bool) (l : list ascii) : option Z :=
  match l with
  | [] => if after_digit then Some acc else None
  | c :: l' =>
      if isdigit c then digits (10 * acc + digit_value c) true l'
      else if Ascii.eqb c "_" then
        if after_digit then digits acc false l' else None
      else None
  end.

(** [int(s)] for a pure ASCII string: [None] stands for the [ValueError]
    Python raises.  CPython 3.11 and later also refuse, by default, a
    literal of more than 4300 digits; a directory entry is far shorter, and
    that limit is left out. *)
Definition int_ascii (s : string) : option Z :=
  match strip (chars s) with
  | "-"%char :: l => Z.opp <$> digits 0 false l
  | "+"%char :: l => digits 0 false l
  | l => digits 0 false l
  end.

(** [s.isascii()] *)
Definition isascii (s : string) : bool :=
  forallb (fun c => (nat_of_ascii c <? 128)%nat) (chars s).

(** [int(s)] *)
Definition int `{Interpreter} (s : string) : option Z :=
  if isascii s then int_ascii s else int_non_ascii s.

(** [str(n)] for an integer, as used by the f-string [f"ID: {track_id}"].
    The integers the program prints come from 64-bit columns and have at
    most 19 digits, far below the 4300 digits beyond which CPython 3.11
    and later refuse the conversion. *)
Definition str (n : Z) : string := NilZero.string_of_int (Z.to_int n).

End PyStr.

(** ** [os.path] (POSIX flavour) *)

Module OsPath.

(** [os.path.splitext(p)]: the extension starts at the last dot of the last
    path component, unless that component has only dots before it. *)
Definition splitext (p : string) : string * string :=
  let cs := PyStr.chars p in
  let sepIndex := PyStr.rfind "/" p in
  let dotIndex := PyStr.rfind "." p in
  if bool_decide (sepIndex < dotIndex) then
    if forallb (fun c => Ascii.eqb c ".") (PyStr.slice (sepIndex + 1) dotIndex cs)
    then (p, "")
    else (PyStr.of_chars (take (Z.to_nat dotIndex) cs),
          PyStr.of_chars (drop (Z.to_nat dotIndex) cs))
  else (p, "").

(** [os.path.join(a, b)] *)
Definition join (a b : string) : string :=
  if bool_decide (head (PyStr.chars b) = Some "/"%char) then b
  else if bool_decide (a = "") || PyStr.endswith a "/" then a +:+ b
  else a +:+ "/" +:+ b.

End OsPath.

(** ** Data model *)

(** A cell of one of the four columns the procedure never reads, [conf],
    [x], [y], [z]: an integer literal, or a literal with a fraction or an
    exponent, kept as its text.  Only the kind of the cell matters: one
    cell of the second kind turns its column into a column of floats. *)
Inductive Cell :=
| IntCell (n : Z)
| FloatCell (text : string).

(** One row of the log.  [frame], [id] and the four box columns hold
    64-bit integers. *)
Record TrackRecord := {
  frame : Z;
  id : Z;
  bb_left : Z;
  bb_top : Z;
  bb_width : Z;
  bb_height : Z;
  conf : Cell;
  x : Cell;
  y : Cell;
  z : Cell
}.

(** What [pd.read_csv(txt_path, header=None, names=columns)] does: it raises
    one of the two exceptions caught at lines 25-30, or another one
    ([ParserError], [PermissionError], [IsADirectoryError], ...), or it
    returns the table, rows in file order.  The table may have no row at
    all: with the column names passed in, the parser has no header to look
    for, and a file without rows comes back as a table without rows. *)
Inductive ReadCsv :=
| EmptyDataError
| FileNotFoundError
| OtherReadError
| DataFrame (df : list TrackRecord).

(** A BGR triple as passed to the drawing calls. *)
Definition Color : Type := Z * Z * Z.

(** The fallback of [colors.get(track_id, (0, 255, 0))]. *)
Definition green : Color := (0, 255, 0).

(** A decoded image: [shape] is [(height, width, 3)]. *)
Record Image := {
  height : Z;
  width : Z;
  data : list Z
}.

Inductive Font := FONT_HERSHEY_SIMPLEX.

(** The two drawing calls of the loop body, with their arguments.
    [fontScale] is kept in tenths: [0.7] is [7]. *)
Inductive DrawOp :=
| Rectangle (pt1 pt2 : Z * Z) (color : Color) (thickness : Z)
| PutText (text : string) (org : Z * Z) (fontFace : Font)
          (fontScaleTenths : Z) (color : Color) (thickness : Z).

(** A frame as handed to [writer.write]: the decoded image and the drawing
    calls applied to it, oldest first.  [frame_idx] is the loop counter the
    frame was produced under. *)
Record AnnotatedFrame := {
  frame_idx : Z;
  image : Image;
  overlay : list DrawOp
}.

(** The [cv2.VideoWriter] object. *)
Record VideoWriter := {
  filename : string;
  fourcc : string;
  writer_fps : Z;
  frameSize : Z * Z;
  written : list AnnotatedFrame;
  released : bool
}.

(** ** The random generator

    [np.random.randint(low, high)] returns an integer of the half-open
    interval from [low] (included) to [high] (excluded) and advances the
    process-wide generator.  The generator is modelled by the sequence of
    its raw outputs and the number of outputs consumed so far; a raw output
    is reduced into the interval. *)
Record RandomState := {
  raw : nat -> Z;
  consumed : nat
}.

Definition randint (low high : Z) (g : RandomState) : Z * RandomState :=
  (low + raw g (consumed g) mod (high - low),
   {| raw := raw g; consumed := S (consumed g) |}).

(** ** The outside world

    The files do not change while the procedure runs: reading a path twice
    gives the same result. *)

(** The exceptions of [os.listdir]: the one line 46 catches, and the
    others ([NotADirectoryError], [PermissionError], ...). *)
Inductive ListdirError :=
| DirectoryNotFound
| OtherOSError.

Record World := {
  read_csv : string -> ReadCsv;
  (** [os.listdir]; [None] when it raises. *)
  listdir : string -> option (list string);
  (** The exception [os.listdir] raises, when it raises. *)
  listdir_error : string -> ListdirError;
  (** [cv2.imread]; [None] when the file cannot be decoded. *)
  imread : string -> option Image;
  random_state : RandomState;
  (** What sits at the writer's path once it is released: [None] when
      [os.path.exists] is false, otherwise [os.path.getsize]. *)
  on_disk : VideoWriter -> option N
}.

(** How a run ends: the message it prints last, or the exception that
    escapes it. *)
Inductive Status :=
| EmptyInput            (* line 26 *)
| NotFound              (* line 29 *)
| ReadError             (* pd.read_csv, line 24: not caught *)
| NoImages              (* line 44 *)
| DirNotFound           (* line 47 *)
| OSError               (* os.listdir, line 41: not caught *)
| FirstImageUnreadable  (* line 54 *)
| ValueError            (* int() of a stem, line 42: not caught *)
| DrawingError          (* a drawing call, line 86 or 90: not caught *)
| Success               (* line 105 *)
| EmptyOutput           (* line 108 *)
| MissingOutput.        (* line 110 *)

Record Run := {
  status : Status;
  (** paths reported by the warning of line 70, oldest first *)
  warnings : list string;
  (** the writer as the run leaves it, if line 60 was reached *)
  stream : option VideoWriter
}.

(** The finished video: the writer of a run that got as far as releasing
    it (line 96). *)
Definition video (r : Run) : option VideoWriter :=
  match stream r with
  | Some wr => if released wr then Some wr else None
  | None => None
  end.

(** ** Section 2 of the procedure: one colour per id *)

(** [Series.unique()]: the distinct values in order of first appearance. *)
Fixpoint unique (l : list Z) : list Z :=
  match l with
  | [] => []
  | x :: l' => x :: filter (fun y => y ≠ x) (unique l')
  end.

(** The dict comprehension of line 35, one iteration per element of
    [unique_ids]; the three draws are made left to right. *)
Fixpoint assign_colors (unique_ids : list Z) (g : RandomState)
    (colors : gmap Z Color) : gmap Z Color * RandomState :=
  match unique_ids with
  | [] => (colors, g)
  | tid :: rest =>
      let '(c0, g) := randint 0 255 g in
      let '(c1, g) := randint 0 255 g in
      let '(c2, g) := randint 0 255 g in
      assign_colors rest g (<[tid := (c0, c1, c2)]> colors)
  end.

Definition build_colors (df : list TrackRecord) (g : RandomState) : gmap Z Color :=
  (assign_colors (unique (map id df)) g ∅).1.

(** ** Section 3: the image files *)

(** [sorted(l, key=key)]: the keys are computed first (any failure aborts),
    then the list is sorted on them; the sort is stable. *)
Section Sorted.
Context {A : Type} (key : A -> option Z).

Fixpoint with_keys (l : list A) : option (list (Z * A)) :=
  match l with
  | [] => Some []
  | x :: l' =>
      match key x with
      | None => None
      | Some k =>
          match with_keys l' with
          | None => None
          | Some kl => Some ((k, x) :: kl)
          end
      end
  end.

Fixpoint insert_keyed (x : Z * A) (l : list (Z * A)) : list (Z * A) :=
  match l with
  | [] => [x]
  | y :: l' => if x.1 <=? y.1 then x :: y :: l' else y :: insert_keyed x l'
  end.

Definition sort_keyed (l : list (Z * A)) : list (Z * A) :=
  foldr insert_keyed [] l.

Definition sorted (l : list A) : option (list A) :=
  match with_keys l with
  | None => None
  | Some kl => Some (map snd (sort_keyed kl))
  end.

(** [a] may stand before [b]: both keys exist and are in order. *)
Definition key_le (a b : A) : Prop :=
  exists ka kb, key a = Some ka /\ key b = Some kb /\ ka <= kb.

Definition fst_le (p q : Z * A) : Prop := p.1 <= q.1.

End Sorted.

Definition is_jpg (f : string) : bool := PyStr.endswith f ".jpg".

(** ** Section 4: reading and drawing the rows of a frame *)

(** An integer of the table seen as a 64-bit float and read back with
    [int]: up to 2^53 in size it is itself; beyond, it is rounded to 53
    significant bits, to the nearest, a tie going to the even side. *)
Definition to_float64 (n : Z) : Z :=
  let a := Z.abs n in
  if a <=? 2 ^ 53 then n
  else
    let e := Z.log2 a - 52 in
    let q := Z.shiftr a e in
    let r := Z.land a (Z.ones e) in
    let half := 2 ^ (e - 1) in
    let q' :=
      if r <? half then q
      else if half <? r then q + 1
      else if Z.even q then q else q + 1 in
    Z.sgn n * Z.shiftl q' e.

Definition is_float (c : Cell) : bool :=
  match c with
  | IntCell _ => false
  | FloatCell _ => true
  end.

(** The table has a column of floats. *)
Definition floating (df : list TrackRecord) : bool :=
  existsb (fun row => is_float (conf row) || is_float (x row)
                      || is_float (y row) || is_float (z row)) df.

(** A row with every integer seen as a float. *)
Definition upcast (row : TrackRecord) : TrackRecord :=
  {| frame := to_float64 (frame row);
     id := to_float64 (id row);
     bb_left := to_float64 (bb_left row);
     bb_top := to_float64 (bb_top row);
     bb_width := to_float64 (bb_width row);
     bb_height := to_float64 (bb_height row);
     conf := conf row; x := x row; y := y row; z := z row |}.

(** A row of the table [df] as [iterrows] hands it out: the row is one
    [Series], with one type for all its values, so that a single column of
    floats in [df] has every value of the row turned into a float. *)
Definition as_read (df : list TrackRecord) (row : TrackRecord) : TrackRecord :=
  if floating df then upcast row else row.

(** Line 77: [detections.iterrows()], for a part [detections] of the
    table [df]. *)
Definition iterrows (df detections : list TrackRecord) : list TrackRecord :=
  map (as_read df) detections.

(** Lines 78-90 for one row as handed out by [iterrows]: the two calls,
    with their arguments. *)
Definition draw_row (colors : gmap Z Color) (row : TrackRecord) : list DrawOp :=
  let track_id := id row in
  let x := bb_left row in
  let y := bb_top row in
  let w := bb_width row in
  let h := bb_height row in
  let color := default green (colors !! track_id) in
  let label := "ID: " +:+ PyStr.str track_id in
  [ Rectangle (x, y) (x + w, y + h) color 2;
    PutText label (x, y - 5) FONT_HERSHEY_SIMPLEX 7 color 2 ].

(** OpenCV takes the coordinates of a point as signed 32-bit integers. *)
Definition int32 (n : Z) : bool := (- 2 ^ 31 <=? n) && (n <? 2 ^ 31).

(** The call is carried out; otherwise it raises. *)
Definition cv2_accepts (op : DrawOp) : bool :=
  match op with
  | Rectangle pt1 pt2 _ _ => int32 pt1.1 && int32 pt1.2 && int32 pt2.1 && int32 pt2.2
  | PutText _ org _ _ _ _ => int32 org.1 && int32 org.2
  end.

(** Line 74: [df[df['frame'] == frame_idx]]. *)
Definition detections_in_frame (df : list TrackRecord) (idx : Z) : list TrackRecord :=
  List.filter (fun row => frame row =? idx) df.

(** Lines 74-90: the frame after all its rows are drawn. *)
Definition annotate (colors : gmap Z Color) (df : list TrackRecord)
    (idx : Z) (img : Image) : AnnotatedFrame :=
  {| frame_idx := idx;
     image := img;
     overlay :=
       flat_map (draw_row colors) (iterrows df (detections_in_frame df idx)) |}.

(** [writer.write(frame)] *)
Definition write (wr : VideoWriter) (fr : AnnotatedFrame) : VideoWriter :=
  {| filename := filename wr; fourcc := fourcc wr; writer_fps := writer_fps wr;
     frameSize := frameSize wr; written := (written wr ++ [fr])%list;
     released := released wr |}.

(** [writer.release()] *)
Definition release (wr : VideoWriter) : VideoWriter :=
  {| filename := filename wr; fourcc := fourcc wr; writer_fps := writer_fps wr;
     frameSize := frameSize wr; written := written wr; released := true |}.

(** [enumerate(l, start)] *)
Fixpoint enumerate {A : Type} (start : Z) (l : list A) : list (Z * A) :=
  match l with
  | [] => []
  | x :: l' => (start, x) :: enumerate (start + 1) l'
  end.

(** What the loop carries from one iteration to the next: the writer and
    the paths reported by the warning of line 70, oldest first. *)
Record LoopState := {
  writer : VideoWriter;
  warned : list string
}.

(** How a piece of the loop ends: it runs to its end, or an exception
    leaves it; either way with the state reached. *)
Inductive Flow :=
| Completed (st : LoopState)
| Raised (st : LoopState).

(** Lines 66-93: one iteration.  The frame is written when every drawing
    call made for it was carried out. *)
Definition loop_body (w : World) (colors : gmap Z Color) (df : list TrackRecord)
    (img_dir : string) (st : LoopState) (it : Z * string) : Flow :=
  let '(idx, img_file) := it in
  let img_path := OsPath.join img_dir img_file in
  match imread w img_path with
  | None =>
      Completed {| writer := writer st; warned := (warned st ++ [img_path])%list |}
  | Some fr =>
      let drawn := annotate colors df idx fr in
      if forallb cv2_accepts (overlay drawn) then
        Completed {| writer := write (writer st) drawn; warned := warned st |}
      else Raised st
  end.

(** The iterations over the items [its], until one raises. *)
Fixpoint iterate (w : World) (colors : gmap Z Color) (df : list TrackRecord)
    (img_dir : string) (its : list (Z * string)) (st : LoopState) : Flow :=
  match its with
  | [] => Completed st
  | it :: rest =>
      match loop_body w colors df img_dir st it with
      | Completed st' => iterate w colors df img_dir rest st'
      | Raised st' => Raised st'
      end
  end.

(** Line 65: [for frame_idx, img_file in enumerate(img_files, 1)]. *)
Definition render_loop (w : World) (colors : gmap Z Color) (df : list TrackRecord)
    (img_dir : string) (img_files : list string) (st : LoopState) : Flow :=
  iterate w colors df img_dir (enumerate 1 img_files) st.

(** Lines 101-110. *)
Definition report (disk : option N) : Status :=
  match disk with
  | Some file_size => if (0 <? file_size)%N then Success else EmptyOutput
  | None => MissingOutput
  end.

Definition stop (s : Status) : Run :=
  {| status := s; warnings := []; stream := None |}.

(** ** The procedure *)

Section Procedure.
Context `{python : Interpreter}.

(** [lambda x: int(os.path.splitext(x)[0])] *)
Definition stem_key (x : string) : option Z := PyStr.int (OsPath.splitext x).1.

(** Lines 41-42. *)
Definition list_img_files (names : list string) : option (list string) :=
  sorted stem_key (List.filter is_jpg names).

Definition visualize_tracking_results (w : World)
    (txt_path img_dir output_path : string) (fps : Z) : Run :=
  match read_csv w txt_path with
  | EmptyDataError => stop EmptyInput
  | FileNotFoundError => stop NotFound
  | OtherReadError => stop ReadError
  | DataFrame df =>
      let colors := build_colors df (random_state w) in
      match listdir w img_dir with
      | None =>
          match listdir_error w img_dir with
          | DirectoryNotFound => stop DirNotFound
          | OtherOSError => stop OSError
          end
      | Some names =>
          match list_img_files names with
          | None => stop ValueError
          | Some [] => stop NoImages
          | Some ((first :: _) as img_files) =>
              match imread w (OsPath.join img_dir first) with
              | None => stop FirstImageUnreadable
              | Some first_frame =>
                  let opened :=
                    {| filename := output_path; fourcc := "mp4v";
                       writer_fps := fps;
                       frameSize := (width first_frame, height first_frame);
                       written := []; released := false |} in
                  match render_loop w colors df img_dir img_files
                          {| writer := opened; warned := [] |} with
                  | Raised st =>
                      {| status := DrawingError;
                         warnings := warned st;
                         stream := Some (writer st) |}
                  | Completed st =>
                      let closed := release (writer st) in
                      {| status := report (on_disk w closed);
                         warnings := warned st;
                         stream := Some closed |}
                  end
              end
          end
      end
  end.

End Procedure.
(** ** Notions used in the statements *)

(** The channel values a draw of line 35 can give. *)
Definition drawn_channel (v : Z) : Prop := 0 <= v < 255.

Definition drawn_color (c : Color) : Prop :=
  drawn_channel c.1.1 /\ drawn_channel c.1.2 /\ drawn_channel c.2.

(** What one iteration appends to the writer when nothing raises, and
    what it reports. *)
Definition decoded (w : World) (colors : gmap Z Color) (df : list TrackRecord)
    (img_dir : string) (it : Z * string) : option AnnotatedFrame :=
  annotate colors df it.1 <$> imread w (OsPath.join img_dir it.2).

Definition skipped (w : World) (img_dir : string) (it : Z * string) : option string :=
  match imread w (OsPath.join img_dir it.2) with
  | None => Some (OsPath.join img_dir it.2)
  | Some _ => None
  end.

(** The writer as it stands after [release], when the loop ran over
    [img_files] and the stream was opened from [first_frame]. *)
Definition closed_writer (w : World) (df : list TrackRecord)
    (img_dir output_path : string) (fps : Z) (img_files : list string)
    (first_frame : Image) : VideoWriter :=
  {| filename := output_path; fourcc := "mp4v"; writer_fps := fps;
     frameSize := (width first_frame, height first_frame);
     written :=
       omap (decoded w (build_colors df (random_state w)) df img_dir)
            (enumerate 1 img_files);
     released := true |}.

(** The two calls made for [row], given the colour looked up for it. *)
Definition box_and_label (row : TrackRecord) (c : Color) : list DrawOp :=
  [ Rectangle (bb_left row, bb_top row)
              (bb_left row + bb_width row, bb_top row + bb_height row) c 2;
    PutText ("ID: " +:+ PyStr.str (id row)) (bb_left row, bb_top row - 5)
            FONT_HERSHEY_SIMPLEX 7 c 2 ].

(** The colour argument of a drawing call. *)
Definition op_color (op : DrawOp) : Color :=
  match op with
  | Rectangle _ _ color _ => color
  | PutText _ _ _ _ color _ => color
  end.

(** [cv2.imread] gives [None] for this file of the directory. *)
Definition undecodable (w : World) (img_dir img_file : string) : bool :=
  match imread w (OsPath.join img_dir img_file) with
  | None => true
  | Some _ => false
  end.

(** Every drawing call made for the frame is carried out. *)
Definition acceptable (fr : AnnotatedFrame) : bool :=
  forallb cv2_accepts (overlay fr).

(** The corners of the box of [row] and the anchor of its label fit
    OpenCV's 32-bit coordinates. *)
Definition fits_int32 (row : TrackRecord) : bool :=
  int32 (bb_left row) && int32 (bb_top row)
  && int32 (bb_left row + bb_width row) && int32 (bb_top row + bb_height row)
  && int32 (bb_top row - 5).

(** OpenCV can draw every row of the table, as [iterrows] hands it out. *)
Definition drawable (df : list TrackRecord) : Prop :=
  Forall (fun row => fits_int32 (as_read df row) = true) df.


(** [v] is a possible channel value: some log and some state of the
    generator give a table in which a colour has [v] as a channel. *)
Definition possible_channel (v : Z) : Prop :=
  exists df g tid c,
    build_colors df g !! tid = Some c /\ (c.1.1 = v \/ c.1.2 = v \/ c.2 = v).

(** The result of the [k]-th call of [randint(0, 255)] made from the state
    [g], counting from 0. *)
Definition nth_draw (g : RandomState) (k : nat) : Z :=
  raw g (consumed g + k)%nat mod 255.

(** The integer a decimal numeral spells when it is read after the digits
    that gave [acc]. *)
Fixpoint numeral_value (acc : Z) (d : Decimal.uint) : Z :=
  match d with
  | Decimal.Nil => acc
  | Decimal.D0 d' => numeral_value (10 * acc + 0) d'
  | Decimal.D1 d' => numeral_value (10 * acc + 1) d'
  | Decimal.D2 d' => numeral_value (10 * acc + 2) d'
  | Decimal.D3 d' => numeral_value (10 * acc + 3) d'
  | Decimal.D4 d' => numeral_value (10 * acc + 4) d'
  | Decimal.D5 d' => numeral_value (10 * acc + 5) d'
  | Decimal.D6 d' => numeral_value (10 * acc + 6) d'
  | Decimal.D7 d' => numeral_value (10 * acc + 7) d'
  | Decimal.D8 d' => numeral_value (10 * acc + 8) d'
  | Decimal.D9 d' => numeral_value (10 * acc + 9) d'
  end.

(** An ASCII character [int] accepts nowhere in a decimal literal: neither
    a digit, nor an underscore, nor a sign, nor white space. *)
Definition foreign_char (c : ascii) : bool :=
  (nat_of_ascii c <? 128)%nat
  && negb (PyStr.isdigit c || PyStr.isspace c || Ascii.eqb c "_"
           || Ascii.eqb c "-" || Ascii.eqb c "+").

(** The same world, with the directory listed as [names]. *)
Definition with_listdir (w : World) (names : list string) : World :=
  {| read_csv := read_csv w;
     listdir := fun _ => Some names;
     listdir_error := listdir_error w;
     imread := imread w;
     random_state := random_state w;
     on_disk := on_disk w |}.

Section Statements.
Context `{python : Interpreter}.

(** The files of a sequence whose stem spells the integer [k]. *)
Definition has_stem (k : Z) (f : string) : bool :=
  bool_decide (stem_key f = Some k).

End Statements.


(** C6 as it is stated: a run whose first image decodes and in which a
    later image does not decode goes on to the end, and writes one frame
    less for each image that does not decode. *)
Definition skipping_never_stops_the_run : Prop :=
  forall (python : Interpreter) w txt dir out fps df names first rest first_frame,
    read_csv w txt = DataFrame df ->
    listdir w dir = Some names ->
    list_img_files names = Some (first :: rest) ->
    imread w (OsPath.join dir first) = Some first_frame ->
    Exists (fun f => imread w (OsPath.join dir f) = None) rest ->
    let r := visualize_tracking_results w txt dir out fps in
    exists wr,
      stream r = Some wr /\
      released wr = true /\
      (status r = Success \/ status r = EmptyOutput \/ status r = MissingOutput) /\
      (length (written wr)
       + length (List.filter (undecodable w dir) (first :: rest))
       = length (first :: rest))%nat.

(** C8 as it is stated: the stream takes its size from the earliest image
    that decodes, wherever that image stands in the sequence. *)
Definition size_from_earliest_decodable : Prop :=
  forall (python : Interpreter) w txt dir out fps df names img_files (n : nat)
         img_file img,
    read_csv w txt = DataFrame df ->
    listdir w dir = Some names ->
    list_img_files names = Some img_files ->
    img_files !! n = Some img_file ->
    imread w (OsPath.join dir img_file) = Some img ->
    (forall (m : nat) f,
        (m < n)%nat -> img_files !! m = Some f ->
        imread w (OsPath.join dir f) = None) ->
    exists wr,
      stream (visualize_tracking_results w txt dir out fps) = Some wr /\
      frameSize wr = (width img, height img).
(** ** A concrete run

    A five-image directory [img1] with a gap in the numbering ([10.jpg] is
    the fifth frame), one file that is not an image, one image that does not
    decode ([2.jpg]), and a three-row log [det.txt].  Beside it: a log
    [empty.txt] parsed into a table without rows, a log [late.txt] with a
    row for frame 2, a log [wide.txt] with a box OpenCV cannot draw, a log
    [big.txt] with an id beyond 2^53, a directory [void] without images,
    and a directory [tail] whose first image does not decode. *)
Module Demo.

(** An interpreter for the concrete runs: of the strings that are not pure
    ASCII it reads those written with ASCII and Arabic-Indic digits
    (U+0660 to U+0669, the bytes D9 A0 to D9 A9).  The runs below only
    meet ASCII names. *)
Fixpoint arabic_indic (acc : Z) (seen : bool) (l : list ascii) : option Z :=
  match l with
  | [] => if seen then Some acc else None
  | c :: l' =>
      if PyStr.isdigit c then
        arabic_indic (10 * acc + PyStr.digit_value c) true l'
      else if (nat_of_ascii c =? 217)%nat then
        match l' with
        | d :: l'' =>
            let n := nat_of_ascii d in
            if ((160 <=? n) && (n <=? 169))%nat then
              arabic_indic (10 * acc + (Z.of_nat n - 160)) true l''
            else None
        | [] => None
        end
      else None
  end.

Definition interpreter : Interpreter :=
  {| int_non_ascii := fun s => arabic_indic 0 false (PyStr.chars s) |}.

Definition picture (n : Z) : Image :=
  {| height := 480; width := 640; data := [n] |}.

(** A row in the way the log of the specification writes them:
    [frame,id,left,top,width,height,0.9,0,0,0]. *)
Definition row (f i l t w h : Z) : TrackRecord :=
  {| frame := f; id := i; bb_left := l; bb_top := t; bb_width := w;
     bb_height := h; conf := FloatCell "0.9";
     x := IntCell 0; y := IntCell 0; z := IntCell 0 |}.

Definition log : list TrackRecord :=
  [ row 1 3 90 190 50 80; row 5 3 100 200 50 80; row 5 8 10 20 30 40 ].

Definition late : list TrackRecord := [ row 2 3 90 190 50 80 ].

Definition wide : list TrackRecord := [ row 3 3 (2 ^ 31) 190 50 80 ].

Definition big : list TrackRecord := [ row 1 (2 ^ 53 + 1) 90 190 50 80 ].

Definition names : list string :=
  [ "3.jpg"; "10.jpg"; "1.jpg"; "2.jpg"; "notes.txt"; "4.jpg" ].

Definition world : World :=
  {| read_csv := fun p =>
       if String.eqb p "det.txt" then DataFrame log
       else if String.eqb p "empty.txt" then DataFrame []
       else if String.eqb p "late.txt" then DataFrame late
       else if String.eqb p "wide.txt" then DataFrame wide
       else if String.eqb p "big.txt" then DataFrame big
       else if String.eqb p "img1" then OtherReadError
       else FileNotFoundError;
     listdir := fun d =>
       if String.eqb d "img1" then Some names
       else if String.eqb d "void" then Some [ "notes.txt" ]
       else if String.eqb d "tail" then Some [ "3.jpg"; "2.jpg" ]
       else None;
     listdir_error := fun d =>
       if String.eqb d "det.txt" then OtherOSError else DirectoryNotFound;
     imread := fun p =>
       if String.eqb p "img1/1.jpg" then Some (picture 1)
       else if String.eqb p "img1/3.jpg" then Some (picture 3)
       else if String.eqb p "img1/4.jpg" then Some (picture 4)
       else if String.eqb p "img1/10.jpg" then Some (picture 10)
       else if String.eqb p "tail/3.jpg" then Some (picture 3)
       else None;
     random_state := {| raw := fun n => 255 + 100 * Z.of_nat n; consumed := 0 |};
     on_disk := fun wr => Some (1024 * N.of_nat (length (written wr)))%N |}.

Definition run : Run :=
  @visualize_tracking_results interpreter world "det.txt" "img1" "out.mp4" 30.

Definition img_files : list string :=
  [ "1.jpg"; "2.jpg"; "3.jpg"; "4.jpg"; "10.jpg" ].

Definition closed : VideoWriter :=
  closed_writer world log "img1" "out.mp4" 30 img_files (picture 1).


End Demo.

(** ** A second concrete run

    A directory in the layout of the MOT benchmark: zero-padded names,
    numbered from 1 without a gap, listed out of order; every image
    decodes. *)
Module Mot.

Definition names : list string :=
  [ "000003.jpg"; "000001.jpg"; "seqinfo.ini"; "000002.jpg" ].

Definition world : World :=
  {| read_csv := fun _ => DataFrame Demo.log;
     listdir := fun _ => Some names;
     listdir_error := fun _ => DirectoryNotFound;
     imread := fun p =>
       if String.eqb p "img1/000001.jpg" then Some (Demo.picture 1)
       else if String.eqb p "img1/000002.jpg" then Some (Demo.picture 2)
       else if String.eqb p "img1/000003.jpg" then Some (Demo.picture 3)
       else None;
     random_state := {| raw := fun n => Z.of_nat n; consumed := 0 |};
     on_disk := fun _ => None |}.

End Mot.
(** * Properties *)

Section Properties.
Context `{python : Interpreter}.

(** ** [sorted] *)
Section SortedFacts.
Context {A : Type} (key : A -> option Z).

Lemma with_keys_snd l kl : with_keys key l = Some kl -> map snd kl = l.
Proof.
  revert kl. induction l as [|x l IH]; intros kl H; simpl in H.
  - by inversion H.
  - destruct (key x) as [k|]; [|done].
    destruct (with_keys key l) as [kl'|]; [|done].
    inversion H; subst. simpl. f_equal. by apply IH.
Qed.

Lemma with_keys_key l kl :
  with_keys key l = Some kl -> Forall (fun p => key p.2 = Some p.1) kl.
Proof.
  revert kl. induction l as [|x l IH]; intros kl H; simpl in H.
  - inversion H. constructor.
  - destruct (key x) as [k|] eqn:Hk; [|done].
    destruct (with_keys key l) as [kl'|]; [|done].
    inversion H; subst. constructor; [done|]. by apply IH.
Qed.

Lemma with_keys_total l :
  Forall (fun x => is_Some (key x)) l -> is_Some (with_keys key l).
Proof.
  induction 1 as [|x l [k Hk] _ [kl Hkl]]; simpl; [by eexists|].
  rewrite Hk, Hkl. by eexists.
Qed.

Lemma insert_keyed_perm (x : Z * A) l : Permutation (x :: l) (insert_keyed x l).
Proof.
  induction l as [|y l IH]; simpl; [done|].
  destruct (x.1 <=? y.1); [done|].
  rewrite <- IH. apply perm_swap.
Qed.

Lemma sort_keyed_perm (l : list (Z * A)) : Permutation l (sort_keyed l).
Proof.
  induction l as [|x l IH]; simpl; [done|].
  rewrite <- insert_keyed_perm. by constructor.
Qed.

Lemma insert_keyed_sorted (x : Z * A) l :
  StronglySorted fst_le l -> StronglySorted fst_le (insert_keyed x l).
Proof.
  induction 1 as [|y l Hs IH Hy]; simpl.
  - repeat constructor.
  - destruct (x.1 <=? y.1) eqn:Hxy.
    + apply Z.leb_le in Hxy. constructor; [by constructor|].
      constructor; [done|].
      eapply Forall_impl; [exact Hy|]. unfold fst_le. intros; lia.
    + apply Z.leb_gt in Hxy. constructor; [done|].
      rewrite <- insert_keyed_perm. constructor; [|done].
      unfold fst_le. lia.
Qed.

Lemma sort_keyed_sorted (l : list (Z * A)) : StronglySorted fst_le (sort_keyed l).
Proof.
  induction l; simpl; [constructor|]. by apply insert_keyed_sorted.
Qed.

(** The sort is stable: rows with equal keys keep their order. *)
Lemma insert_keyed_stable k (x : Z * A) l :
  List.filter (fun p => p.1 =? k) (insert_keyed x l)
  = List.filter (fun p => p.1 =? k) (x :: l).
Proof.
  induction l as [|y l IH]; [done|].
  cbn [insert_keyed]. destruct (x.1 <=? y.1) eqn:Hxy; [done|].
  apply Z.leb_gt in Hxy.
  cbn [List.filter] in *. rewrite IH.
  destruct (y.1 =? k) eqn:Hy; [|done].
  apply Z.eqb_eq in Hy.
  assert ((x.1 =? k) = false) as -> by (apply Z.eqb_neq; lia). done.
Qed.

Lemma sort_keyed_stable k (l : list (Z * A)) :
  List.filter (fun p => p.1 =? k) (sort_keyed l)
  = List.filter (fun p => p.1 =? k) l.
Proof.
  induction l as [|x l IH]; [done|].
  cbn [sort_keyed foldr]. rewrite insert_keyed_stable.
  cbn [List.filter]. fold (sort_keyed l). by rewrite IH.
Qed.

Lemma keyed_sorted_snd (kl : list (Z * A)) :
  StronglySorted fst_le kl ->
  Forall (fun p => key p.2 = Some p.1) kl ->
  StronglySorted (key_le key) (map snd kl).
Proof.
  induction 1 as [|p kl Hs IH Hp]; intros Hk; simpl; [constructor|].
  apply Forall_cons in Hk as [Hkp Hk].
  constructor; [by apply IH|].
  apply Forall_map. rewrite Forall_forall in Hp, Hk |- *.
  intros q Hq. exists p.1, q.1. split_and!; [done|by apply Hk|by apply Hp].
Qed.

Lemma sorted_total l :
  Forall (fun x => is_Some (key x)) l -> is_Some (sorted key l).
Proof.
  intros H. unfold sorted.
  destruct (with_keys_total l H) as [kl ->]. by eexists.
Qed.

Lemma sorted_perm l l' : sorted key l = Some l' -> Permutation l l'.
Proof.
  unfold sorted. destruct (with_keys key l) as [kl|] eqn:Hkl; [|done].
  intros [= <-]. rewrite <- (with_keys_snd _ _ Hkl).
  apply Permutation_map, sort_keyed_perm.
Qed.

Lemma sorted_ordered l l' : sorted key l = Some l' -> StronglySorted (key_le key) l'.
Proof.
  unfold sorted. destruct (with_keys key l) as [kl|] eqn:Hkl; [|done].
  intros [= <-]. apply keyed_sorted_snd; [apply sort_keyed_sorted|].
  apply with_keys_key in Hkl.
  rewrite Forall_forall in Hkl |- *. intros p Hp. apply Hkl.
  eapply elem_of_Permutation_proper; [apply sort_keyed_perm|done].
Qed.

Lemma sorted_keys_defined l l' :
  sorted key l = Some l' -> Forall (fun x => is_Some (key x)) l.
Proof.
  unfold sorted. destruct (with_keys key l) as [kl|] eqn:Hkl; [|done].
  intros _. pose proof (with_keys_key _ _ Hkl) as Hk.
  rewrite <- (with_keys_snd _ _ Hkl). apply Forall_map.
  eapply Forall_impl; [exact Hk|]. intros p ->. by eexists.
Qed.

End SortedFacts.

(** ** The colour table *)

Lemma elem_of_unique (x : Z) (l : list Z) : x ∈ unique l <-> x ∈ l.
Proof.
  induction l as [|y l IH]; simpl; [done|].
  rewrite !elem_of_cons, list_elem_of_filter, IH.
  destruct (decide (x = y)); naive_solver.
Qed.

Lemma NoDup_unique (l : list Z) : NoDup (unique l).
Proof.
  induction l as [|y l IH]; simpl; constructor.
  - rewrite list_elem_of_filter. naive_solver.
  - by apply NoDup_filter.
Qed.

Lemma randint_range low high g :
  low < high -> low <= (randint low high g).1 < high.
Proof.
  intros H. unfold randint; simpl.
  pose proof (Z.mod_pos_bound (raw g (consumed g)) (high - low)). lia.
Qed.

Lemma assign_colors_lookup ids g (m : gmap Z Color) tid :
  is_Some ((assign_colors ids g m).1 !! tid) <-> tid ∈ ids \/ is_Some (m !! tid).
Proof.
  revert g m. induction ids as [|i ids IH]; intros g m; simpl.
  - rewrite elem_of_nil. tauto.
  - rewrite IH, elem_of_cons, lookup_insert_is_Some.
    destruct (decide (i = tid)); naive_solver.
Qed.

Lemma assign_colors_drawn ids g (m : gmap Z Color) :
  map_Forall (fun _ c => drawn_color c) m ->
  map_Forall (fun _ c => drawn_color c) (assign_colors ids g m).1.
Proof.
  revert g m. induction ids as [|i ids IH]; intros g m Hm; simpl; [done|].
  apply IH. apply map_Forall_insert_2; [|done].
  unfold drawn_color, drawn_channel; simpl.
  repeat split; try apply Z.mod_pos_bound; lia.
Qed.

Lemma build_colors_lookup df g tid :
  is_Some (build_colors df g !! tid) <-> exists row, In row df /\ id row = tid.
Proof.
  unfold build_colors. rewrite assign_colors_lookup, elem_of_unique.
  rewrite lookup_empty, is_Some_alt, list_elem_of_In, in_map_iff. naive_solver.
Qed.

Lemma build_colors_drawn df g tid c :
  build_colors df g !! tid = Some c -> drawn_color c.
Proof.
  intros H. eapply (assign_colors_drawn _ g ∅); [|exact H].
  apply map_Forall_empty.
Qed.

(** ** The rendering loop *)

Lemma enumerate_length {A} start (l : list A) : length (enumerate start l) = length l.
Proof. revert start. induction l; intros; simpl; auto. Qed.

Lemma enumerate_lookup {A} start (l : list A) (n : nat) x :
  l !! n = Some x -> enumerate start l !! n = Some (start + Z.of_nat n, x).
Proof.
  revert start n. induction l as [|y l IH]; intros start [|n] H; simplify_eq/=.
  - do 2 f_equal. lia.
  - rewrite (IH (start + 1) n H). do 2 f_equal. lia.
Qed.

Lemma elem_of_enumerate {A} start (l : list A) i x :
  (i, x) ∈ enumerate start l ->
  start <= i /\ l !! Z.to_nat (i - start) = Some x.
Proof.
  revert start. induction l as [|y l IH]; intros start; simpl.
  - by rewrite elem_of_nil.
  - rewrite elem_of_cons. intros [[= -> ->]|H].
    + split; [lia|]. by replace (start - start) with 0 by lia.
    + apply IH in H as [Hle H]. split; [lia|].
      replace (Z.to_nat (i - start)) with (S (Z.to_nat (i - (start + 1)))) by lia.
      done.
Qed.





Lemma fits_int32_accepts colors row :
  fits_int32 row = true -> forallb cv2_accepts (draw_row colors row) = true.
Proof.
  unfold fits_int32, draw_row. cbn [forallb cv2_accepts fst snd].
  rewrite !andb_true_iff. intros ((((-> & ->) & ->) & ->) & ->). done.
Qed.

Lemma accepts_fits_int32 colors row :
  forallb cv2_accepts (draw_row colors row) = true -> fits_int32 row = true.
Proof.
  unfold fits_int32, draw_row. cbn [forallb cv2_accepts fst snd].
  rewrite !andb_true_iff. intros ((((-> & ->) & ->) & ->) & ((_ & ->) & _)). done.
Qed.

Lemma forallb_flat_map {A B} (p : B -> bool) (f : A -> list B) (l : list A) :
  forallb p (flat_map f l) = forallb (fun a => forallb p (f a)) l.
Proof.
  induction l as [|a l IH]; [done|]. simpl. by rewrite forallb_app, IH.
Qed.

Lemma drawable_acceptable colors df idx img :
  drawable df -> acceptable (annotate colors df idx img) = true.
Proof.
  intros Hd. unfold acceptable, annotate. cbn [overlay].
  rewrite forallb_flat_map. apply forallb_forall. intros row Hrow.
  unfold iterrows in Hrow. apply in_map_iff in Hrow as (r & <- & Hr).
  apply fits_int32_accepts. unfold detections_in_frame in Hr.
  apply filter_In in Hr as [Hr _]. unfold drawable in Hd.
  rewrite Forall_forall in Hd. apply Hd. by apply list_elem_of_In.
Qed.

Lemma omap_decoded_cons w colors df dir idx f (its : list (Z * string)) :
  omap (decoded w colors df dir) ((idx, f) :: its) =
  match imread w (OsPath.join dir f) with
  | Some img => annotate colors df idx img :: omap (decoded w colors df dir) its
  | None => omap (decoded w colors df dir) its
  end.
Proof.
  cbn [omap list_omap]. unfold decoded at 1. cbn [fst snd].
  by destruct (imread w (OsPath.join dir f)).
Qed.

Lemma omap_skipped_cons w dir idx f (its : list (Z * string)) :
  omap (skipped w dir) ((idx, f) :: its) =
  match imread w (OsPath.join dir f) with
  | Some _ => omap (skipped w dir) its
  | None => OsPath.join dir f :: omap (skipped w dir) its
  end.
Proof.
  cbn [omap list_omap]. unfold skipped at 1. cbn [fst snd].
  by destruct (imread w (OsPath.join dir f)).
Qed.

(** The loop, when nothing raises. *)
Lemma iterate_completed w colors df dir its st st' :
  iterate w colors df dir its st = Completed st' ->
  written (writer st')
    = (written (writer st) ++ omap (decoded w colors df dir) its)%list
  /\ warned st' = (warned st ++ omap (skipped w dir) its)%list
  /\ filename (writer st') = filename (writer st)
  /\ fourcc (writer st') = fourcc (writer st)
  /\ writer_fps (writer st') = writer_fps (writer st)
  /\ frameSize (writer st') = frameSize (writer st)
  /\ released (writer st') = released (writer st)
  /\ Forall (fun fr => acceptable fr = true) (omap (decoded w colors df dir) its).
Proof.
  revert st. induction its as [|[idx f] its IH]; intros st Hit.
  - cbn [iterate] in Hit. injection Hit as <-. simpl.
    rewrite !app_nil_r. split_and!; try done.
  - cbn [iterate] in Hit. unfold loop_body in Hit.
    rewrite omap_decoded_cons, omap_skipped_cons.
    destruct (imread w (OsPath.join dir f)) as [img|].
    + fold (acceptable (annotate colors df idx img)) in Hit.
      destruct (acceptable (annotate colors df idx img)) eqn:Hacc; [|done].
      apply IH in Hit as (Hw & Hs & H1 & H2 & H3 & H4 & H5 & Hall).
      cbn [writer warned write written filename fourcc writer_fps frameSize
           released] in *.
      rewrite Hw, Hs, H1, H2, H3, H4, H5, <- app_assoc.
      split_and!; try done. by constructor.
    + apply IH in Hit as (Hw & Hs & H1 & H2 & H3 & H4 & H5 & Hall).
      cbn [writer warned] in *.
      rewrite Hw, Hs, H1, H2, H3, H4, H5, <- app_assoc. split_and!; done.
Qed.

Lemma iterate_acceptable w colors df dir its st :
  Forall (fun fr => acceptable fr = true) (omap (decoded w colors df dir) its) ->
  exists st', iterate w colors df dir its st = Completed st'.
Proof.
  revert st. induction its as [|[idx f] its IH]; intros st Hall.
  - by eexists.
  - cbn [iterate]. unfold loop_body.
    rewrite omap_decoded_cons in Hall.
    destruct (imread w (OsPath.join dir f)) as [img|].
    + apply Forall_cons in Hall as [Hacc Hall]. unfold acceptable in Hacc.
      rewrite Hacc. by apply IH.
    + by apply IH.
Qed.

(** The loop, when a drawing call raises: the frames before the one that
    raises were written, and nothing after them. *)
Lemma iterate_raised w colors df dir its st st' :
  iterate w colors df dir its st = Raised st' ->
  exists pre idx f img post,
    its = (pre ++ (idx, f) :: post)%list /\
    imread w (OsPath.join dir f) = Some img /\
    acceptable (annotate colors df idx img) = false /\
    written (writer st')
      = (written (writer st) ++ omap (decoded w colors df dir) pre)%list /\
    warned st' = (warned st ++ omap (skipped w dir) pre)%list /\
    filename (writer st') = filename (writer st) /\
    fourcc (writer st') = fourcc (writer st) /\
    writer_fps (writer st') = writer_fps (writer st) /\
    frameSize (writer st') = frameSize (writer st) /\
    released (writer st') = released (writer st) /\
    Forall (fun fr => acceptable fr = true) (omap (decoded w colors df dir) pre).
Proof.
  revert st. induction its as [|[idx f] its IH]; intros st Hit; [done|].
  cbn [iterate] in Hit. unfold loop_body in Hit.
  destruct (imread w (OsPath.join dir f)) as [img|] eqn:Himg.
  - fold (acceptable (annotate colors df idx img)) in Hit.
    destruct (acceptable (annotate colors df idx img)) eqn:Hacc.
    + apply IH in Hit as (pre & i & g & img' & post & -> & Himg' & Hacc'
                          & Hw & Hs & H1 & H2 & H3 & H4 & H5 & Hall).
      exists ((idx, f) :: pre), i, g, img', post.
      rewrite omap_decoded_cons, omap_skipped_cons, Himg.
      cbn [writer warned write written filename fourcc writer_fps frameSize
           released] in *.
      rewrite Hw, Hs, <- app_assoc. split_and!; try done. by constructor.
    + injection Hit as <-. exists [], idx, f, img, its. simpl.
      rewrite !app_nil_r. split_and!; done.
  - apply IH in Hit as (pre & i & g & img' & post & -> & Himg' & Hacc'
                        & Hw & Hs & H1 & H2 & H3 & H4 & H5 & Hall).
    exists ((idx, f) :: pre), i, g, img', post.
    rewrite omap_decoded_cons, omap_skipped_cons, Himg.
    cbn [writer warned] in *.
    rewrite Hw, Hs, <- app_assoc. split_and!; done.
Qed.

Lemma skipped_enumerate w dir start (l : list string) :
  omap (skipped w dir) (enumerate start l)
  = map (OsPath.join dir) (List.filter (undecodable w dir) l).
Proof.
  revert start. induction l as [|f l IH]; intros start; [done|].
  cbn [enumerate List.filter]. rewrite omap_skipped_cons. unfold undecodable at 1.
  destruct (imread w (OsPath.join dir f)); cbn [map]; by rewrite IH.
Qed.

Lemma decoded_enumerate_length w colors df dir start (l : list string) :
  (length (omap (decoded w colors df dir) (enumerate start l))
   + length (List.filter (undecodable w dir) l) = length l)%nat.
Proof.
  revert start. induction l as [|f l IH]; intros start; [done|].
  cbn [enumerate List.filter]. rewrite omap_decoded_cons. unfold undecodable at 1.
  specialize (IH (start + 1)).
  destruct (imread w (OsPath.join dir f)); cbn [length]; lia.
Qed.

Lemma decoded_at w colors df dir (img_files : list string) i img_file img :
  1 <= i ->
  img_files !! Z.to_nat (i - 1) = Some img_file ->
  imread w (OsPath.join dir img_file) = Some img ->
  In (annotate colors df i img)
     (omap (decoded w colors df dir) (enumerate 1 img_files)).
Proof.
  intros Hi Hf Himg. apply list_elem_of_In, list_elem_of_omap.
  exists (i, img_file). split.
  - apply list_elem_of_lookup. exists (Z.to_nat (i - 1)).
    rewrite (enumerate_lookup 1 _ _ _ Hf). do 2 f_equal. lia.
  - unfold decoded; simpl. by rewrite Himg.
Qed.

Lemma written_frame_origin w colors df dir (img_files : list string) fr :
  In fr (omap (decoded w colors df dir) (enumerate 1 img_files)) ->
  exists img_file,
    1 <= frame_idx fr /\
    img_files !! Z.to_nat (frame_idx fr - 1) = Some img_file /\
    imread w (OsPath.join dir img_file) = Some (image fr) /\
    fr = annotate colors df (frame_idx fr) (image fr).
Proof.
  rewrite <- list_elem_of_In, list_elem_of_omap.
  intros [[i f] [Hin Hdec]]. unfold decoded in Hdec; simpl in Hdec.
  destruct (imread w (OsPath.join dir f)) as [img|] eqn:Himg; [|done].
  simpl in Hdec. injection Hdec as <-. simpl.
  apply elem_of_enumerate in Hin as [Hle Hf]. eauto.
Qed.

Lemma omap_app_In {A B} (f : A -> option B) (pre post : list A) y :
  In y (omap f pre) -> In y (omap f (pre ++ post)%list).
Proof. rewrite omap_app. intros H. apply in_or_app. by left. Qed.

(** ** The whole run *)

(** What a run that opened the writer leaves behind: the writer holds the
    frames of the iterations made, in their order; either every iteration
    was made and the writer is released, or a drawing call raised, at an
    image that decodes, and the writer is left as it was. *)
Lemma run_stream_inv w txt dir out fps wr :
  let r := visualize_tracking_results w txt dir out fps in
  stream r = Some wr ->
  exists df names first rest first_frame pre post,
    read_csv w txt = DataFrame df /\
    listdir w dir = Some names /\
    list_img_files names = Some (first :: rest) /\
    imread w (OsPath.join dir first) = Some first_frame /\
    enumerate 1 (first :: rest) = (pre ++ post)%list /\
    written wr = omap (decoded w (build_colors df (random_state w)) df dir) pre /\
    warnings r = omap (skipped w dir) pre /\
    filename wr = out /\ fourcc wr = "mp4v" /\ writer_fps wr = fps /\
    frameSize wr = (width first_frame, height first_frame) /\
    Forall (fun fr => acceptable fr = true) (written wr) /\
    (if released wr
     then post = [] /\ status r = report (on_disk w wr)
     else status r = DrawingError /\
          exists idx f img post',
            post = (idx, f) :: post' /\
            imread w (OsPath.join dir f) = Some img /\
            acceptable (annotate (build_colors df (random_state w)) df idx img)
            = false).
Proof.
  cbv zeta. unfold visualize_tracking_results.
  destruct (read_csv w txt) as [| | |df] eqn:Hcsv; try discriminate.
  destruct (listdir w dir) as [names|] eqn:Hls;
    [|destruct (listdir_error w dir); discriminate].
  destruct (list_img_files names) as [[|first rest]|] eqn:Hfiles; try discriminate.
  destruct (imread w (OsPath.join dir first)) as [img0|] eqn:H0; try discriminate.
  cbv zeta. unfold render_loop.
  match goal with
  | |- context [iterate ?w ?c ?d ?i ?l ?s] =>
      destruct (iterate w c d i l s) as [st|st] eqn:Hit
  end; cbn [stream status warnings]; intros [= <-].
  - apply iterate_completed in Hit as (Hw & Hs & H1 & H2 & H3 & H4 & H5 & Hall).
    cbn [writer warned written filename fourcc writer_fps frameSize released app]
      in Hw, Hs, H1, H2, H3, H4, H5.
    exists df, names, first, rest, img0, (enumerate 1 (first :: rest)), [].
    cbn [release written filename fourcc writer_fps frameSize released].
    rewrite app_nil_r, Hw. split_and!; try done.
  - apply iterate_raised in Hit
      as (pre & idx & f & img & post & Hsplit & Himg & Hacc & Hw & Hs & H1 & H2
          & H3 & H4 & H5 & Hall).
    cbn [writer warned written filename fourcc writer_fps frameSize released app]
      in Hw, Hs, H1, H2, H3, H4, H5.
    exists df, names, first, rest, img0, pre, ((idx, f) :: post).
    rewrite H5, Hw. split_and!; try done. eauto 10.
Qed.

(** A run whose first image decodes and whose drawing calls are all
    carried out. *)
Lemma run_rendering w txt dir out fps df names first rest first_frame :
  read_csv w txt = DataFrame df ->
  listdir w dir = Some names ->
  list_img_files names = Some (first :: rest) ->
  imread w (OsPath.join dir first) = Some first_frame ->
  drawable df ->
  visualize_tracking_results w txt dir out fps =
    let closed := closed_writer w df dir out fps (first :: rest) first_frame in
    {| status := report (on_disk w closed);
       warnings := omap (skipped w dir) (enumerate 1 (first :: rest));
       stream := Some closed |}.
Proof.
  intros Hcsv Hls Hfiles Hfirst Hd. unfold visualize_tracking_results.
  rewrite Hcsv, Hls, Hfiles, Hfirst. cbv zeta. unfold render_loop.
  match goal with
  | |- context [iterate ?w ?c ?d ?i ?l ?s] =>
      destruct (iterate_acceptable w c d i l s) as [st Hit]
  end.
  { apply Forall_forall. intros fr Hfr. apply list_elem_of_In in Hfr.
    apply written_frame_origin in Hfr as (_ & _ & _ & _ & ->).
    by apply drawable_acceptable. }
  rewrite Hit.
  apply iterate_completed in Hit as (Hw & Hs & H1 & H2 & H3 & H4 & H5 & _).
  cbn [writer warned written filename fourcc writer_fps frameSize released app]
    in Hw, Hs, H1, H2, H3, H4, H5.
  unfold release, closed_writer.
  rewrite Hw, Hs, H1, H2, H3, H4. reflexivity.
Qed.

Lemma video_stream r wr :
  video r = Some wr <-> stream r = Some wr /\ released wr = true.
Proof.
  unfold video. destruct (stream r) as [wr'|].
  - destruct (released wr') eqn:Hrel.
    + split; [intros [= ->]; done|intros [[= ->] _]; done].
    + split; [done|intros [[= ->] ?]; congruence].
  - split; [done|intros [? _]; done].
Qed.

(** The finished video of a run holds exactly the frames that decode, each
    annotated under its position in [img_files]. *)
Lemma run_video_inv w txt dir out fps wr :
  let r := visualize_tracking_results w txt dir out fps in
  video r = Some wr ->
  exists df names first rest first_frame,
    read_csv w txt = DataFrame df /\
    listdir w dir = Some names /\
    list_img_files names = Some (first :: rest) /\
    imread w (OsPath.join dir first) = Some first_frame /\
    wr = closed_writer w df dir out fps (first :: rest) first_frame /\
    warnings r = omap (skipped w dir) (enumerate 1 (first :: rest)) /\
    status r = report (on_disk w wr).
Proof.
  cbv zeta. intros Hv. apply video_stream in Hv as [Hs Hrel].
  destruct (run_stream_inv _ _ _ _ _ _ Hs)
    as (df & names & first & rest & img0 & pre & post & Hcsv & Hls & Hfiles & H0
        & Hsplit & Hw & Hwarn & H1 & H2 & H3 & H4 & _ & Hend).
  rewrite Hrel in Hend. destruct Hend as [-> Hstatus].
  rewrite app_nil_r in Hsplit. subst pre.
  exists df, names, first, rest, img0. split_and!; try done.
  unfold closed_writer. destruct wr; simpl in *. by subst.
Qed.

Lemma run_written w txt dir out fps df names img_files wr :
  read_csv w txt = DataFrame df ->
  listdir w dir = Some names ->
  list_img_files names = Some img_files ->
  video (visualize_tracking_results w txt dir out fps) = Some wr ->
  written wr =
    omap (decoded w (build_colors df (random_state w)) df dir)
         (enumerate 1 img_files).
Proof.
  intros Hcsv Hls Hfiles Hv.
  destruct (run_video_inv _ _ _ _ _ _ Hv)
    as (df' & names' & first & rest & img0 & Hcsv' & Hls' & Hfiles' & H0 & -> & _).
  assert (df' = df) as -> by congruence.
  assert (names' = names) as -> by congruence.
  assert (img_files = first :: rest) as -> by congruence.
  reflexivity.
Qed.

(** Every frame a run hands to the writer, finished or not, is the decoded
    image of the file at the frame's position, drawn from the one table
    built before the loop. *)
Lemma run_frame_origin w txt dir out fps df names img_files wr fr :
  read_csv w txt = DataFrame df ->
  listdir w dir = Some names ->
  list_img_files names = Some img_files ->
  stream (visualize_tracking_results w txt dir out fps) = Some wr ->
  In fr (written wr) ->
  exists img_file,
    1 <= frame_idx fr /\
    img_files !! Z.to_nat (frame_idx fr - 1) = Some img_file /\
    imread w (OsPath.join dir img_file) = Some (image fr) /\
    fr = annotate (build_colors df (random_state w)) df (frame_idx fr) (image fr).
Proof.
  intros Hcsv Hls Hfiles Hs Hfr.
  destruct (run_stream_inv _ _ _ _ _ _ Hs)
    as (df' & names' & first & rest & img0 & pre & post & Hcsv' & Hls' & Hfiles'
        & H0 & Hsplit & Hw & _).
  assert (df' = df) as -> by congruence.
  assert (names' = names) as -> by congruence.
  assert (img_files = first :: rest) as -> by congruence.
  rewrite Hw in Hfr. apply (omap_app_In _ _ post) in Hfr.
  rewrite <- Hsplit in Hfr. by apply written_frame_origin in Hfr.
Qed.

Lemma run_overlay w txt dir out fps df wr fr :
  read_csv w txt = DataFrame df ->
  stream (visualize_tracking_results w txt dir out fps) = Some wr ->
  In fr (written wr) ->
  overlay fr =
    flat_map (draw_row (build_colors df (random_state w)))
             (iterrows df (detections_in_frame df (frame_idx fr))).
Proof.
  intros Hcsv Hs Hfr.
  destruct (run_stream_inv _ _ _ _ _ _ Hs)
    as (df' & names & first & rest & img0 & pre & post & Hcsv' & Hls & Hfiles & _).
  assert (df' = df) as -> by congruence.
  destruct (run_frame_origin _ _ _ _ _ _ _ _ _ _ Hcsv Hls Hfiles Hs Hfr)
    as (_ & _ & _ & _ & ->).
  reflexivity.
Qed.

Lemma detections_in_frame_In df idx row :
  In row (detections_in_frame df idx) <-> In row df /\ frame row = idx.
Proof.
  unfold detections_in_frame. rewrite filter_In, Z.eqb_eq. reflexivity.
Qed.


Lemma draw_row_default colors row :
  draw_row colors row = box_and_label row (default green (colors !! id row)).
Proof. reflexivity. Qed.


(** ** How a run can end *)

Lemma report_completes d :
  report d = Success \/ report d = EmptyOutput \/ report d = MissingOutput.
Proof.
  unfold report. destruct d as [size|]; [destruct (0 <? size)%N|]; auto.
Qed.

Lemma run_cases w txt dir out fps :
  let r := visualize_tracking_results w txt dir out fps in
  (video r = None /\
   In (status r)
      [ EmptyInput; NotFound; ReadError; DirNotFound; OSError; ValueError;
        NoImages; FirstImageUnreadable; DrawingError ])
  \/ (exists wr,
        video r = Some wr /\ released wr = true /\
        status r = report (on_disk w wr)).
Proof.
  cbv zeta.
  destruct (stream (visualize_tracking_results w txt dir out fps)) as [wr|] eqn:Hs.
  - destruct (run_stream_inv _ _ _ _ _ _ Hs)
      as (df & names & first & rest & img0 & pre & post & _ & _ & _ & _ & _ & _
          & _ & _ & _ & _ & _ & _ & Hend).
    destruct (released wr) eqn:Hrel.
    + right. exists wr. split_and!; [|done|by destruct Hend].
      apply video_stream. done.
    + left. destruct Hend as [-> _]. split; [|simpl; tauto].
      unfold video. by rewrite Hs, Hrel.
  - left. split; [unfold video; by rewrite Hs|].
    revert Hs. unfold visualize_tracking_results.
    destruct (read_csv w txt) as [| | |df]; [simpl; tauto..|].
    destruct (listdir w dir) as [names|];
      [|destruct (listdir_error w dir); simpl; tauto].
    destruct (list_img_files names) as [[|first rest]|];
      [simpl; tauto| |simpl; tauto].
    destruct (imread w (OsPath.join dir first)); [|simpl; tauto].
    cbv zeta. destruct (render_loop _ _ _ _ _ _); discriminate.
Qed.

Lemma report_Success d :
  report d = Success <-> exists size, d = Some size /\ (0 < size)%N.
Proof.
  unfold report. destruct d as [size|].
  - destruct (0 <? size)%N eqn:H.
    + apply N.ltb_lt in H. naive_solver.
    + apply N.ltb_ge in H. split; [done|]. intros (? & [= <-] & ?). lia.
  - naive_solver.
Qed.

Lemma report_EmptyOutput d : report d = EmptyOutput <-> d = Some 0%N.
Proof.
  unfold report. destruct d as [size|].
  - destruct (0 <? size)%N eqn:H.
    + apply N.ltb_lt in H. split; [done|]. intros [= ->]. lia.
    + apply N.ltb_ge in H. split; [|done]. intros _. f_equal. lia.
  - naive_solver.
Qed.

Lemma report_MissingOutput d : report d = MissingOutput <-> d = None.
Proof.
  unfold report. destruct d as [size|]; [|done].
  destruct (0 <? size)%N; naive_solver.
Qed.

Lemma id_as_read df row :
  id (as_read df row) = if floating df then to_float64 (id row) else id row.
Proof. unfold as_read. by destruct (floating df). Qed.

Lemma filter_none {A} (p : A -> bool) (l : list A) :
  Forall (fun x => p x = false) l -> List.filter p l = [].
Proof.
  induction 1 as [|x l Hx _ IH]; [done|]. simpl. by rewrite Hx.
Qed.

Lemma build_colors_single row g :
  build_colors [row] g !! id row
  = Some (raw g (consumed g) mod 255,
          raw g (S (consumed g)) mod 255,
          raw g (S (S (consumed g))) mod 255).
Proof.
  unfold build_colors.
  change (unique (map id [row])) with [id row].
  cbn [assign_colors randint raw consumed fst snd].
  rewrite lookup_insert_eq. rewrite !Z.sub_0_r, !Z.add_0_l. reflexivity.
Qed.

Lemma sorted_pairwise {A} (key : A -> option Z) (l : list A) (i j : nat) a b :
  StronglySorted (key_le key) l ->
  (i < j)%nat -> l !! i = Some a -> l !! j = Some b -> key_le key a b.
Proof.
  intros Hs. revert i j. induction Hs as [|x l Hs IH Hx]; intros i j Hij Ha Hb.
  - done.
  - destruct j as [|j]; [lia|]. destruct i as [|i]; simpl in Ha, Hb.
    + injection Ha as ->. rewrite Forall_forall in Hx. apply Hx.
      eapply list_elem_of_lookup_2, Hb.
    + apply (IH i j); [lia|done..].
Qed.

(** ** The claims *)


(** C2.  When [int] reads the stem of every [.jpg] name of the directory,
    the frame sequence exists, holds exactly the [.jpg] names, and stands
    in the order of the integers [int] reads from the stems.  In a run
    over it whose first image decodes and whose boxes OpenCV can draw, the
    video is finished and the file at position [n] (counting from 0), when
    it decodes, is written as the frame of index [n + 1], annotated with
    exactly the rows whose [frame] is [n + 1]; and in any run every frame
    handed to the writer carries the position of its file in that order,
    whatever number the file name spells.  The names [1.jpg], [10.jpg],
    [2.jpg] are sorted into [1.jpg], [2.jpg], [10.jpg] and numbered 1, 2,
    3. *)
Theorem C2_frames_follow_numeric_order w txt dir out fps df names :
  Forall (fun f => is_Some (PyStr.int (OsPath.splitext f).1))
         (List.filter (fun f => PyStr.endswith f ".jpg") names) ->
  read_csv w txt = DataFrame df ->
  listdir w dir = Some names ->
  let r := visualize_tracking_results w txt dir out fps in
  exists img_files,
    list_img_files names = Some img_files /\
    Permutation (List.filter (fun f => PyStr.endswith f ".jpg") names) img_files /\
    (forall (i j : nat) f g,
        (i < j)%nat -> img_files !! i = Some f -> img_files !! j = Some g ->
        exists a b,
          PyStr.int (OsPath.splitext f).1 = Some a /\
          PyStr.int (OsPath.splitext g).1 = Some b /\
          a <= b) /\
    (forall first first_frame,
        img_files !! 0%nat = Some first ->
        imread w (OsPath.join dir first) = Some first_frame ->
        drawable df ->
        exists wr,
          video r = Some wr /\
          forall (n : nat) img_file img,
            img_files !! n = Some img_file ->
            imread w (OsPath.join dir img_file) = Some img ->
            exists fr,
              In fr (written wr) /\
              frame_idx fr = Z.of_nat n + 1 /\
              image fr = img /\
              overlay fr =
                flat_map (draw_row (build_colors df (random_state w)))
                  (iterrows df
                     (List.filter (fun row => frame row =? Z.of_nat n + 1) df))) /\
    (forall wr fr,
        stream r = Some wr ->
        In fr (written wr) ->
        exists img_file,
          1 <= frame_idx fr /\
          img_files !! Z.to_nat (frame_idx fr - 1) = Some img_file /\
          imread w (OsPath.join dir img_file) = Some (image fr) /\
          overlay fr =
            flat_map (draw_row (build_colors df (random_state w)))
              (iterrows df
                 (List.filter (fun row => frame row =? frame_idx fr) df))) /\
    list_img_files [ "1.jpg"; "10.jpg"; "2.jpg" ]
      = Some [ "1.jpg"; "2.jpg"; "10.jpg" ] /\
    enumerate 1 [ "1.jpg"; "2.jpg"; "10.jpg" ]
      = [ (1, "1.jpg"); (2, "2.jpg"); (3, "10.jpg") ].
Proof.
  intros Hstems Hcsv Hls r.
  destruct (sorted_total stem_key _ Hstems) as [img_files Hfiles].
  exists img_files. split_and!.
  - exact Hfiles.
  - by apply (sorted_perm stem_key).
  - intros i j f g Hij Hf Hg.
    apply (sorted_ordered stem_key) in Hfiles.
    exact (sorted_pairwise stem_key img_files i j f g Hfiles Hij Hf Hg).
  - intros first first_frame Hhead Hfirst Hd.
    destruct img_files as [|first' rest]; [done|]. injection Hhead as ->.
    exists (closed_writer w df dir out fps (first :: rest) first_frame).
    subst r.
    rewrite (run_rendering _ _ _ out fps _ _ _ _ _ Hcsv Hls Hfiles Hfirst Hd).
    split; [done|]. intros n img_file img Hn Himg.
    exists (annotate (build_colors df (random_state w)) df (Z.of_nat n + 1) img).
    split_and!; try reflexivity.
    apply (decoded_at _ _ _ _ _ _ img_file); [lia| |done].
    by replace (Z.to_nat (Z.of_nat n + 1 - 1)) with n by lia.
  - intros wr fr Hs Hfr.
    destruct (run_frame_origin _ _ _ _ _ _ _ _ _ _ Hcsv Hls Hfiles Hs Hfr)
      as (img_file & H1 & H2 & H3 & H4).
    exists img_file. split_and!; try done. by rewrite H4 at 1.
  - reflexivity.
  - reflexivity.
Qed.

(** C3.  The colour table of a run is the one built from the whole log
    before the first frame is read; every frame handed to the writer is
    drawn from that same table; and two rows with the same id, whatever
    frames they are drawn on, get their rectangle and their label in one
    and the same colour.  For rows that [iterrows] hands out as they stand
    in the table, that colour is the one the table holds for their id. *)
Theorem C3_same_id_same_color w txt dir out fps df wr :
  read_csv w txt = DataFrame df ->
  stream (visualize_tracking_results w txt dir out fps) = Some wr ->
  exists colors : gmap Z Color,
    colors = build_colors df (random_state w) /\
    (forall fr,
        In fr (written wr) ->
        overlay fr =
          flat_map (draw_row colors)
                   (iterrows df (detections_in_frame df (frame_idx fr)))) /\
    (forall fr1 fr2 r1 r2,
        In fr1 (written wr) -> In fr2 (written wr) ->
        In r1 df -> In r2 df ->
        frame r1 = frame_idx fr1 -> frame r2 = frame_idx fr2 ->
        id r1 = id r2 ->
        exists c,
          incl (box_and_label (as_read df r1) c) (overlay fr1) /\
          incl (box_and_label (as_read df r2) c) (overlay fr2) /\
          (as_read df r1 = r1 -> as_read df r2 = r2 ->
           colors !! id r1 = Some c /\
           incl (box_and_label r1 c) (overlay fr1) /\
           incl (box_and_label r2 c) (overlay fr2))).
Proof.
  intros Hcsv Hv. exists (build_colors df (random_state w)).
  split; [reflexivity|]. split.
  - intros fr Hfr. by apply (run_overlay w txt dir out fps df wr).
  - intros fr1 fr2 r1 r2 Hfr1 Hfr2 Hr1 Hr2 Hf1 Hf2 Hid.
    set (colors := build_colors df (random_state w)).
    assert (id (as_read df r1) = id (as_read df r2)) as Hid'.
    { by rewrite !id_as_read, Hid. }
    assert (incl (draw_row colors (as_read df r1)) (overlay fr1)) as H1.
    { rewrite (run_overlay _ _ _ _ _ _ _ _ Hcsv Hv Hfr1).
      intros op Hop. apply in_flat_map. exists (as_read df r1).
      split; [|done]. apply in_map. by apply detections_in_frame_In. }
    assert (incl (draw_row colors (as_read df r2)) (overlay fr2)) as H2.
    { rewrite (run_overlay _ _ _ _ _ _ _ _ Hcsv Hv Hfr2).
      intros op Hop. apply in_flat_map. exists (as_read df r2).
      split; [|done]. apply in_map. by apply detections_in_frame_In. }
    rewrite draw_row_default in H1, H2. rewrite <- Hid' in H2.
    exists (default green (colors !! id (as_read df r1))).
    split_and!; [exact H1|exact H2|].
    intros He1 He2. rewrite He1 in H1, H2 |- *. rewrite He2 in H2.
    assert (is_Some (colors !! id r1)) as [c Hc].
    { apply build_colors_lookup. eauto. }
    rewrite Hc in H1, H2 |- *. done.
Qed.

(** C4.  A run ends with [Success] exactly when it released a writer and
    the file found afterwards has a size above zero; with [EmptyOutput]
    exactly when that file has size zero; with [MissingOutput] exactly when
    no file is found.  A run that released a writer ends with one of the
    three, and with exactly one. *)
Theorem C4_completion_status w txt dir out fps :
  let r := visualize_tracking_results w txt dir out fps in
  (status r = Success <->
     exists wr size, video r = Some wr /\ on_disk w wr = Some size /\ (0 < size)%N) /\
  (status r = EmptyOutput <->
     exists wr, video r = Some wr /\ on_disk w wr = Some 0%N) /\
  (status r = MissingOutput <->
     exists wr, video r = Some wr /\ on_disk w wr = None) /\
  (forall wr,
     video r = Some wr ->
     released wr = true /\
     (status r = Success /\ status r <> EmptyOutput /\ status r <> MissingOutput
      \/ status r = EmptyOutput /\ status r <> Success /\ status r <> MissingOutput
      \/ status r = MissingOutput /\ status r <> Success /\ status r <> EmptyOutput)).
Proof.
  intros r. destruct (run_cases w txt dir out fps) as [[Hv Hs]|(wr & Hv & Hrel & Hs)];
    fold r in Hv, Hs.
  - split_and!.
    + split; [|intros (? & ? & ? & _); congruence].
      intros H; rewrite H in Hs; simpl in Hs; naive_solver.
    + split; [|intros (? & ? & _); congruence].
      intros H; rewrite H in Hs; simpl in Hs; naive_solver.
    + split; [|intros (? & ? & _); congruence].
      intros H; rewrite H in Hs; simpl in Hs; naive_solver.
    + intros wr; congruence.
  - split_and!.
    + rewrite Hs, report_Success. split.
      * intros (size & ? & ?). by exists wr, size.
      * intros (wr' & size & ? & ? & ?). exists size.
        assert (wr' = wr) as -> by congruence. done.
    + rewrite Hs, report_EmptyOutput. split.
      * intros ?. by exists wr.
      * intros (wr' & ? & ?). assert (wr' = wr) as -> by congruence. done.
    + rewrite Hs, report_MissingOutput. split.
      * intros ?. by exists wr.
      * intros (wr' & ? & ?). assert (wr' = wr) as -> by congruence. done.
    + intros wr' Hv'. assert (wr' = wr) as -> by congruence.
      split; [done|]. rewrite Hs. unfold report.
      destruct (on_disk w wr) as [size|]; [destruct (0 <? size)%N|];
        naive_solver.
Qed.

(** C6, amended.  In a run whose first image decodes and whose boxes all
    fit the 32-bit coordinates of OpenCV, every later image that does not
    decode is reported by a warning and left out: the run still opens,
    fills and releases its writer and ends with one of the three completion
    statuses; the number of frames written is the number of image files
    less one for each file that does not decode; no written frame carries
    the position of such a file; and every written frame is the decoded
    image of the file at its position, so nothing stands in for a skipped
    frame. *)
Theorem C6_undecodable_frames_are_skipped
    w txt dir out fps df names first rest first_frame :
  read_csv w txt = DataFrame df ->
  listdir w dir = Some names ->
  list_img_files names = Some (first :: rest) ->
  imread w (OsPath.join dir first) = Some first_frame ->
  drawable df ->
  let r := visualize_tracking_results w txt dir out fps in
  let bad := List.filter (undecodable w dir) (first :: rest) in
  exists wr,
    video r = Some wr /\
    released wr = true /\
    (status r = Success \/ status r = EmptyOutput \/ status r = MissingOutput) /\
    warnings r = map (OsPath.join dir) bad /\
    (length (written wr) + length bad = length (first :: rest))%nat /\
    (forall (n : nat) img_file,
        (first :: rest) !! n = Some img_file ->
        imread w (OsPath.join dir img_file) = None ->
        forall fr, In fr (written wr) -> frame_idx fr <> Z.of_nat n + 1) /\
    (forall fr,
        In fr (written wr) ->
        exists img_file,
          (first :: rest) !! Z.to_nat (frame_idx fr - 1) = Some img_file /\
          imread w (OsPath.join dir img_file) = Some (image fr)).
Proof.
  intros Hcsv Hls Hfiles Hfirst Hd r bad.
  pose proof (run_rendering _ _ _ out fps _ _ _ _ _ Hcsv Hls Hfiles Hfirst Hd) as Hrun.
  cbv zeta in Hrun. fold r in Hrun.
  set (wr := closed_writer w df dir out fps (first :: rest) first_frame) in *.
  exists wr. rewrite Hrun. cbn [status warnings].
  split_and!.
  - reflexivity.
  - reflexivity.
  - apply report_completes.
  - apply skipped_enumerate.
  - apply decoded_enumerate_length.
  - intros n img_file Hn Hnone fr Hfr Hidx.
    apply written_frame_origin in Hfr as (f' & _ & Hf' & Himg & _).
    rewrite Hidx in Hf'.
    replace (Z.to_nat (Z.of_nat n + 1 - 1)) with n in Hf' by lia.
    congruence.
  - intros fr Hfr.
    apply written_frame_origin in Hfr as (f' & _ & Hf' & Himg & _). eauto.
Qed.

(** C7, on the code.  The channel values the colour table can hold are
    exactly the integers from 0 to 254: each of them is drawn for a suitable
    state of the generator, and 255 is drawn for none, the upper bound of
    [randint(0, 255)] being excluded. *)
Theorem C7_channels_stop_at_254 :
  (forall v, possible_channel v <-> 0 <= v <= 254) /\
  ~ possible_channel 255.
Proof.
  assert (forall v, possible_channel v <-> 0 <= v <= 254) as Hchar.
  { intros v. split.
    - intros (df & g & tid & c & Hc & Hv).
      destruct (build_colors_drawn _ _ _ _ Hc) as (H1 & H2 & H3).
      unfold drawn_channel in *. destruct Hv as [<-|[<-|<-]]; lia.
    - intros Hv.
      set (row := {| frame := 1; id := 1; bb_left := 0; bb_top := 0;
                     bb_width := 10; bb_height := 10;
                     conf := IntCell 1; x := IntCell (-1); y := IntCell (-1);
                     z := IntCell (-1) |}).
      exists [row], {| raw := fun _ => v; consumed := 0 |}, (id row).
      eexists. split; [apply build_colors_single|].
      left. cbn [fst snd raw consumed]. apply Z.mod_small. lia. }
  split; [exact Hchar|]. rewrite Hchar. lia.
Qed.

(** C8, amended.  The size of the stream is taken from the first file of
    the sorted sequence: when that image decodes, the writer is opened
    with its width and height, and keeps them to the end of the run, which
    is a finished video when OpenCV can draw every box; when the image does
    not decode, the run stops with the error of line 54 and no writer is
    opened, whatever the later images are. *)
Theorem C8_size_from_first_file w txt dir out fps df names first rest :
  read_csv w txt = DataFrame df ->
  listdir w dir = Some names ->
  list_img_files names = Some (first :: rest) ->
  let r := visualize_tracking_results w txt dir out fps in
  match imread w (OsPath.join dir first) with
  | Some first_frame =>
      exists wr,
        stream r = Some wr /\
        frameSize wr = (width first_frame, height first_frame) /\
        (drawable df -> video r = Some wr)
  | None => stream r = None /\ video r = None /\ status r = FirstImageUnreadable
  end.
Proof.
  intros Hcsv Hls Hfiles r.
  destruct (imread w (OsPath.join dir first)) as [first_frame|] eqn:Hfirst.
  - destruct (stream r) as [wr|] eqn:Hs.
    + exists wr. split; [done|].
      destruct (run_stream_inv _ _ _ _ _ _ Hs)
        as (df' & names' & first' & rest' & img0 & pre & post & Hcsv' & Hls'
            & Hfiles' & H0 & _ & _ & _ & _ & _ & _ & Hsize & _).
      assert (names' = names) as -> by congruence.
      assert (first' = first) as -> by congruence.
      assert (img0 = first_frame) as -> by congruence.
      split; [done|]. intros Hd. apply video_stream. split; [done|].
      subst r.
      rewrite (run_rendering _ _ _ out fps _ _ _ _ _ Hcsv Hls Hfiles Hfirst Hd)
        in Hs.
      cbv zeta in Hs. cbn [stream] in Hs. by injection Hs as <-.
    + exfalso. revert Hs. subst r. unfold visualize_tracking_results.
      rewrite Hcsv, Hls, Hfiles, Hfirst. cbv zeta.
      destruct (render_loop _ _ _ _ _ _); discriminate.
  - subst r. unfold visualize_tracking_results, video.
    rewrite Hcsv, Hls, Hfiles, Hfirst. split_and!; reflexivity.
Qed.

(** C9.  When the image directory can be listed and none of its names ends
    in [.jpg], the run never opens a writer and ends on an error: the
    message of line 44 whenever the log was loaded, and one of the errors
    of the log otherwise. *)
Theorem C9_no_jpg_no_output w txt dir out fps names :
  listdir w dir = Some names ->
  Forall (fun f => is_jpg f = false) names ->
  let r := visualize_tracking_results w txt dir out fps in
  stream r = None /\
  video r = None /\
  (status r = NoImages \/ status r = EmptyInput \/ status r = NotFound
   \/ status r = ReadError) /\
  (forall df, read_csv w txt = DataFrame df -> status r = NoImages).
Proof.
  intros Hls Hnone r. subst r. unfold visualize_tracking_results, video.
  assert (list_img_files names = Some []) as Hfiles.
  { unfold list_img_files. by rewrite (filter_none _ _ Hnone). }
  destruct (read_csv w txt) as [| | |df]; cbn [stop stream status];
    [naive_solver..|].
  rewrite Hls, Hfiles. cbn [stop stream status]. naive_solver.
Qed.

(** ** A log without rows *)

(** The branch of lines 25-27: the parser signals an empty file. *)
Lemma empty_data_error_stops w txt dir out fps :
  read_csv w txt = EmptyDataError ->
  visualize_tracking_results w txt dir out fps = stop EmptyInput.
Proof. intros H. unfold visualize_tracking_results. by rewrite H. Qed.

(** Nothing after line 24 looks at the number of rows: a table without
    rows is rendered like any other. *)
Lemma zero_rows_not_rejected w txt dir out fps :
  read_csv w txt = DataFrame [] ->
  status (visualize_tracking_results w txt dir out fps) <> EmptyInput.
Proof.
  intros H.
  destruct (run_cases w txt dir out fps) as [[_ Hs]|(wr & _ & _ & Hs)];
    cbv zeta in Hs.
  - intros He. revert Hs He. unfold visualize_tracking_results. rewrite H.
    destruct (listdir w dir) as [names|];
      [|destruct (listdir_error w dir); done].
    destruct (list_img_files names) as [[|first rest]|]; [done| |done].
    destruct (imread w (OsPath.join dir first)); [|done].
    cbv zeta. destruct (render_loop _ _ _ _ _ _); [|done].
    cbn [status]. intros _. unfold report.
    destruct (on_disk w _) as [size|]; [destruct (0 <? size)%N|]; done.
  - rewrite Hs. unfold report.
    destruct (on_disk w _) as [size|]; [destruct (0 <? size)%N|]; done.
Qed.

(** * Further properties of the procedure *)

(** ** Which ending for which cause *)

Lemma with_keys_None {A} (key : A -> option Z) (l : list A) :
  with_keys key l = None <-> exists x, In x l /\ key x = None.
Proof.
  induction l as [|x l IH]; simpl.
  - split; [done|]. by intros (? & [] & _).
  - destruct (key x) as [k|] eqn:Hk.
    + destruct (with_keys key l) as [kl|].
      * split; [done|]. intros (y & [<-|Hy] & Hn); [congruence|].
        assert (Some kl = None) as H by (apply IH; eauto). done.
      * split; [|done]. intros _. destruct IH as [IH _].
        destruct (IH eq_refl) as (y & Hy & Hn). eauto.
    + split; [|done]. intros _. eauto.
Qed.

Lemma list_img_files_None names :
  list_img_files names = None <->
  exists f, In f names /\ is_jpg f = true /\ stem_key f = None.
Proof.
  unfold list_img_files, sorted.
  destruct (with_keys stem_key (List.filter is_jpg names)) as [kl|] eqn:Hkl.
  - split; [done|]. intros (f & Hf & Hjpg & Hn).
    assert (with_keys stem_key (List.filter is_jpg names) = None) as H.
    { apply with_keys_None. exists f. split; [|done]. by apply filter_In. }
    congruence.
  - split; [|done]. intros _. apply with_keys_None in Hkl as (f & Hf & Hn).
    apply filter_In in Hf as [Hf Hjpg]. eauto.
Qed.



Lemma draw_row_accepts colors row :
  forallb cv2_accepts (draw_row colors row) = fits_int32 row.
Proof.
  unfold fits_int32, draw_row. cbn [forallb cv2_accepts fst snd].
  destruct (int32 (bb_left row)), (int32 (bb_top row)),
    (int32 (bb_left row + bb_width row)), (int32 (bb_top row + bb_height row)),
    (int32 (bb_top row - 5)); reflexivity.
Qed.

Lemma acceptable_annotate colors df idx img :
  acceptable (annotate colors df idx img)
  = forallb (fun row => fits_int32 (as_read df row)) (detections_in_frame df idx).
Proof.
  unfold acceptable, annotate, iterrows. cbn [overlay].
  rewrite forallb_flat_map.
  induction (detections_in_frame df idx) as [|row l IH]; [done|].
  cbn [map forallb]. by rewrite draw_row_accepts, IH.
Qed.

Lemma forallb_false {A} (p : A -> bool) (l : list A) :
  forallb p l = false <-> exists x, In x l /\ p x = false.
Proof.
  induction l as [|a l IH]; simpl.
  - split; [done|]. by intros (? & [] & _).
  - rewrite andb_false_iff, IH. split.
    + intros [Ha|(x & Hx & Hp)]; eauto.
    + intros (x & [->|Hx] & Hp); eauto.
Qed.

Lemma unacceptable_row colors df idx img :
  acceptable (annotate colors df idx img) = false <->
  exists row, In row df /\ frame row = idx /\ fits_int32 (as_read df row) = false.
Proof.
  rewrite acceptable_annotate, forallb_false. split.
  - intros (row & Hrow & Hfit).
    apply detections_in_frame_In in Hrow as [Hrow Hf]. eauto.
  - intros (row & Hrow & Hf & Hfit). exists row. split; [|done].
    by apply detections_in_frame_In.
Qed.



(** ** The order of the frames *)

Lemma decoded_indices w colors df dir start (l : list string) :
  StronglySorted Z.lt
    (map frame_idx (omap (decoded w colors df dir) (enumerate start l))) /\
  Forall (fun i => start <= i < start + Z.of_nat (length l))
    (map frame_idx (omap (decoded w colors df dir) (enumerate start l))).
Proof.
  revert start. induction l as [|f l IH]; intros start.
  - split; constructor.
  - destruct (IH (start + 1)) as [Hs Hr].
    assert (Forall (fun i => start < i < start + Z.of_nat (length (f :: l)))
              (map frame_idx
                 (omap (decoded w colors df dir) (enumerate (start + 1) l)))) as Hr'.
    { eapply Forall_impl; [exact Hr|]. simpl. intros; lia. }
    cbn [enumerate]. rewrite omap_decoded_cons.
    destruct (imread w (OsPath.join dir f)) as [img|];
      cbn [map frame_idx annotate].
    + split.
      * constructor; [exact Hs|]. eapply Forall_impl; [exact Hr'|].
        simpl. intros; lia.
      * constructor; [simpl; lia|]. eapply Forall_impl; [exact Hr'|].
        simpl. intros; lia.
    + split; [exact Hs|]. eapply Forall_impl; [exact Hr'|]. simpl. intros; lia.
Qed.

(** X2.  The frames reach the writer in strictly increasing order of their
    index, so no index is written twice, and every index lies between 1
    and the number of image files: a row whose [frame] is outside that
    range is drawn on no frame. *)
Theorem frames_written_in_order w txt dir out fps df names img_files wr :
  read_csv w txt = DataFrame df ->
  listdir w dir = Some names ->
  list_img_files names = Some img_files ->
  video (visualize_tracking_results w txt dir out fps) = Some wr ->
  StronglySorted Z.lt (map frame_idx (written wr)) /\
  Forall (fun fr => 1 <= frame_idx fr <= Z.of_nat (length img_files)) (written wr) /\
  (forall row fr,
      In row df ->
      frame row < 1 \/ Z.of_nat (length img_files) < frame row ->
      In fr (written wr) -> frame_idx fr <> frame row).
Proof.
  intros Hcsv Hls Hfiles Hv.
  rewrite (run_written _ _ _ _ _ _ _ _ _ Hcsv Hls Hfiles Hv).
  destruct (decoded_indices w (build_colors df (random_state w)) df dir 1 img_files)
    as [Hs Hr].
  assert (Forall (fun fr => 1 <= frame_idx fr <= Z.of_nat (length img_files))
            (omap (decoded w (build_colors df (random_state w)) df dir)
                  (enumerate 1 img_files))) as Hrange.
  { apply Forall_map in Hr. eapply Forall_impl; [exact Hr|]. simpl. intros; lia. }
  split_and!; [exact Hs|exact Hrange|].
  intros row fr _ Hout Hfr Heq.
  rewrite Forall_forall in Hrange. apply list_elem_of_In in Hfr.
  specialize (Hrange fr Hfr). lia.
Qed.

(** X3.  The stream of a run starts with the first image.  It holds no
    frame only when a drawing call raised on the very first image, and the
    run then ends on that exception with the writer not released;
    otherwise its first frame is the first file of the sorted sequence,
    under index 1, and the size declared when the writer was opened is the
    size of that frame.  A finished video is never empty. *)
Theorem stream_starts_with_first_image w txt dir out fps wr :
  let r := visualize_tracking_results w txt dir out fps in
  stream r = Some wr ->
  (written wr = [] -> released wr = false /\ status r = DrawingError) /\
  (released wr = true -> written wr <> []) /\
  (forall fr rest,
      written wr = fr :: rest ->
      frame_idx fr = 1 /\
      frameSize wr = (width (image fr), height (image fr)) /\
      exists names img_files first,
        listdir w dir = Some names /\
        list_img_files names = Some img_files /\
        img_files !! 0%nat = Some first /\
        imread w (OsPath.join dir first) = Some (image fr)).
Proof.
  intros r Hs.
  destruct (run_stream_inv _ _ _ _ _ _ Hs)
    as (df & names & first & rest & img0 & pre & post & Hcsv & Hls & Hfiles & H0
        & Hsplit & Hw & _ & _ & _ & _ & Hsize & _ & Hend).
  fold r in Hend. cbn [enumerate] in Hsplit.
  assert (pre = [] -> released wr = false /\ status r = DrawingError) as Hnil.
  { intros ->. destruct (released wr); [|tauto].
    destruct Hend as [-> _]. done. }
  assert (forall it pre', pre = it :: pre' ->
            exists tl, written wr
              = annotate (build_colors df (random_state w)) df 1 img0 :: tl)
    as Hcons.
  { intros it pre' ->. injection Hsplit as <- _.
    rewrite Hw, omap_decoded_cons, H0. eauto. }
  split_and!.
  - intros Hnone. destruct pre as [|it pre']; [by apply Hnil|].
    destruct (Hcons it pre' eq_refl) as [tl Htl]. congruence.
  - intros Hrel Hnone. destruct pre as [|it pre'].
    + destruct Hnil as [Hnil _]; [done|]. congruence.
    + destruct (Hcons it pre' eq_refl) as [tl Htl]. congruence.
  - intros fr tl Hfr. destruct pre as [|it pre'].
    { rewrite Hw in Hfr. done. }
    destruct (Hcons it pre' eq_refl) as [tl' Htl]. rewrite Hfr in Htl.
    injection Htl as -> _. cbn [annotate frame_idx image].
    split_and!; [done..|]. by exists names, (first :: rest), first.
Qed.

(** ** More on the colour table *)

Lemma green_not_drawn c : drawn_color c -> c <> green.
Proof.
  intros (_ & H & _) ->. unfold drawn_channel, green in H. simpl in H. lia.
Qed.

(** Every drawing call of a run is one of the two calls made for a row of
    its frame, as [iterrows] hands the row out. *)
Lemma op_origin w txt dir out fps df wr fr op :
  read_csv w txt = DataFrame df ->
  stream (visualize_tracking_results w txt dir out fps) = Some wr ->
  In fr (written wr) -> In op (overlay fr) ->
  exists row,
    In row df /\ frame row = frame_idx fr /\
    In op (draw_row (build_colors df (random_state w)) (as_read df row)) /\
    op_color op
    = default green (build_colors df (random_state w) !! id (as_read df row)).
Proof.
  intros Hcsv Hs Hfr Hop.
  rewrite (run_overlay _ _ _ _ _ _ _ _ Hcsv Hs Hfr) in Hop.
  apply in_flat_map in Hop as (row' & Hrow' & Hop).
  unfold iterrows in Hrow'. apply in_map_iff in Hrow' as (row & <- & Hrow).
  apply detections_in_frame_In in Hrow as [Hrow Hframe].
  exists row. split_and!; try done.
  destruct Hop as [<-|[<-|[]]]; reflexivity.
Qed.

(** X4.  No id is ever given the fallback colour: every colour of the
    table differs from [(0, 255, 0)].  So a drawing call of a run is green
    exactly when the lookup of line 85 missed the table, which it does for
    no row that [iterrows] hands out with the id it has in the table. *)
Theorem fallback_colour_never_assigned w txt dir out fps df wr :
  read_csv w txt = DataFrame df ->
  stream (visualize_tracking_results w txt dir out fps) = Some wr ->
  (forall tid c, build_colors df (random_state w) !! tid = Some c -> c <> green) /\
  (forall fr op,
      In fr (written wr) -> In op (overlay fr) ->
      exists row,
        In row df /\ frame row = frame_idx fr /\
        In op (draw_row (build_colors df (random_state w)) (as_read df row)) /\
        (op_color op = green <->
         build_colors df (random_state w) !! id (as_read df row) = None) /\
        (id (as_read df row) = id row -> op_color op <> green)).
Proof.
  intros Hcsv Hs.
  assert (forall tid c,
            build_colors df (random_state w) !! tid = Some c -> c <> green) as Htab.
  { intros tid c Hc. eapply green_not_drawn, build_colors_drawn, Hc. }
  split; [exact Htab|]. intros fr op Hfr Hop.
  destruct (op_origin _ _ _ _ _ _ _ _ _ Hcsv Hs Hfr Hop)
    as (row & Hrow & Hframe & Hin & Hcol).
  exists row. split_and!; try done.
  - rewrite Hcol.
    destruct (build_colors df (random_state w) !! id (as_read df row))
      as [c|] eqn:Hc; simpl; [|done].
    split; [|done]. intros ->. by apply Htab in Hc.
  - intros Hid. rewrite Hcol, Hid.
    assert (is_Some (build_colors df (random_state w) !! id row)) as [c Hc].
    { apply build_colors_lookup. eauto. }
    rewrite Hc. simpl. by apply (Htab (id row)).
Qed.


(** X5.  The keys of the colour table are exactly the ids that occur in the
    log.  A row whose id does not occur there would be drawn with the
    fallback colour, rectangle and label alike. *)
Theorem table_keys_are_log_ids df g :
  dom (build_colors df g) = list_to_set (map id df) /\
  (forall row,
      ~ In (id row) (map id df) ->
      build_colors df g !! id row = None /\
      draw_row (build_colors df g) row = box_and_label row green).
Proof.
  assert (forall tid,
            is_Some (build_colors df g !! tid) <-> In tid (map id df)) as Hkey.
  { intros tid. rewrite build_colors_lookup, in_map_iff. naive_solver. }
  split.
  - apply set_eq. intros tid.
    rewrite elem_of_dom, Hkey, elem_of_list_to_set, list_elem_of_In. reflexivity.
  - intros row Hrow.
    assert (build_colors df g !! id row = None) as Hnone.
    { apply eq_None_not_Some. by rewrite Hkey. }
    split; [exact Hnone|]. unfold draw_row, box_and_label. by rewrite Hnone.
Qed.

(** The state of the generator after the comprehension of line 35. *)
Lemma assign_colors_state ids g (m : gmap Z Color) :
  (assign_colors ids g m).2
  = {| raw := raw g; consumed := (consumed g + 3 * length ids)%nat |}.
Proof.
  revert g m. induction ids as [|tid ids IH]; intros g m.
  - simpl. destruct g as [r c]. simpl. f_equal. lia.
  - cbn [assign_colors randint raw consumed]. rewrite IH.
    cbn [raw consumed length]. f_equal. lia.
Qed.

Lemma assign_colors_other ids g (m : gmap Z Color) tid :
  ~ In tid ids -> (assign_colors ids g m).1 !! tid = m !! tid.
Proof.
  revert g m. induction ids as [|i ids IH]; intros g m Hnot; [done|].
  cbn [assign_colors randint raw consumed]. rewrite IH.
  - apply lookup_insert_ne. intros ->. apply Hnot. by left.
  - intros Hin. apply Hnot. by right.
Qed.

Lemma assign_colors_at ids g (m : gmap Z Color) (i : nat) tid :
  List.NoDup ids ->
  ids !! i = Some tid ->
  (assign_colors ids g m).1 !! tid
  = Some (nth_draw g (3 * i), nth_draw g (3 * i + 1), nth_draw g (3 * i + 2)).
Proof.
  revert g m i. induction ids as [|t ids IH]; intros g m i Hnd Hi; [done|].
  apply List.NoDup_cons_iff in Hnd as [Hnot Hnd].
  cbn [assign_colors randint raw consumed].
  destruct i as [|i]; simpl in Hi.
  - injection Hi as ->. rewrite (assign_colors_other _ _ _ _ Hnot).
    rewrite lookup_insert_eq. unfold nth_draw.
    rewrite !Z.sub_0_r, !Z.add_0_l. cbn [Nat.mul Nat.add].
    rewrite !Nat.add_0_r, !Nat.add_1_r.
    replace (consumed g + 2)%nat with (S (S (consumed g))) by lia. reflexivity.
  - rewrite (IH _ _ i Hnd Hi).
    replace (3 * S i)%nat with (3 + 3 * i)%nat by lia.
    replace (3 + 3 * i + 1)%nat with (3 + (3 * i + 1))%nat by lia.
    replace (3 + 3 * i + 2)%nat with (3 + (3 * i + 2))%nat by lia.
    unfold nth_draw. cbn [raw consumed].
    replace (S (S (S (consumed g))) + 3 * i)%nat
      with (consumed g + (3 + 3 * i))%nat by lia.
    replace (S (S (S (consumed g))) + (3 * i + 1))%nat
      with (consumed g + (3 + (3 * i + 1)))%nat by lia.
    replace (S (S (S (consumed g))) + (3 * i + 2))%nat
      with (consumed g + (3 + (3 * i + 2)))%nat by lia.
    reflexivity.
Qed.

Lemma NoDup_unique_list (l : list Z) : List.NoDup (unique l).
Proof. apply NoDup_ListNoDup, NoDup_unique. Qed.

(** X6.  Colours are handed out in the order in which the ids first appear
    in the log: the id at position [i] of that order gets the results of
    the calls number [3i], [3i+1] and [3i+2] of [randint(0, 255)], as its
    three channels in this order, and the whole table costs three calls
    per distinct id, however many rows an id has. *)
Theorem colours_follow_first_appearance df g (i : nat) tid :
  unique (map id df) !! i = Some tid ->
  build_colors df g !! tid
  = Some (nth_draw g (3 * i), nth_draw g (3 * i + 1), nth_draw g (3 * i + 2)) /\
  consumed (assign_colors (unique (map id df)) g ∅).2
  = (consumed g + 3 * length (unique (map id df)))%nat.
Proof.
  intros Hi. split.
  - unfold build_colors. apply assign_colors_at; [apply NoDup_unique_list|done].
  - by rewrite assign_colors_state.
Qed.

(** ** Files whose stems spell the same integer *)

Lemma filter_keyed {A} (key : A -> option Z) k (kl : list (Z * A)) :
  Forall (fun p => key p.2 = Some p.1) kl ->
  List.filter (fun x => bool_decide (key x = Some k)) (map snd kl)
  = map snd (List.filter (fun p => p.1 =? k) kl).
Proof.
  induction 1 as [|[k' x] kl Hp _ IH]; [done|].
  cbn [map List.filter fst snd] in *. rewrite IH, Hp.
  destruct (k' =? k) eqn:Hk.
  - apply Z.eqb_eq in Hk as ->. by rewrite bool_decide_eq_true_2.
  - apply Z.eqb_neq in Hk. rewrite bool_decide_eq_false_2; [done|congruence].
Qed.

Lemma sorted_stable {A} (key : A -> option Z) k (l l' : list A) :
  sorted key l = Some l' ->
  List.filter (fun x => bool_decide (key x = Some k)) l'
  = List.filter (fun x => bool_decide (key x = Some k)) l.
Proof.
  unfold sorted. destruct (with_keys key l) as [kl|] eqn:Hkl; [|done].
  intros [= <-]. pose proof (with_keys_key _ _ _ Hkl) as Hk.
  rewrite <- (with_keys_snd _ _ _ Hkl).
  rewrite !filter_keyed; [by rewrite sort_keyed_stable|done|].
  rewrite Forall_forall in Hk |- *. intros p Hp. apply Hk.
  eapply elem_of_Permutation_proper; [apply sort_keyed_perm|done].
Qed.

(** X7.  The sort is stable: the [.jpg] files whose stems spell the same
    integer ([1.jpg] and [01.jpg], say) stand in the frame sequence in the
    order in which the directory listing gave them. *)
Theorem equal_stems_keep_listing_order names img_files k :
  list_img_files names = Some img_files ->
  List.filter (has_stem k) img_files
  = List.filter (has_stem k) (List.filter is_jpg names).
Proof. intros H. by apply (sorted_stable stem_key k) in H. Qed.


(** ** The stem of a [.jpg] name *)

Lemma chars_app s t : PyStr.chars (s +:+ t) = (PyStr.chars s ++ PyStr.chars t)%list.
Proof. unfold PyStr.chars. induction s as [|c s IH]; simpl; [done|]. by rewrite IH. Qed.

Lemma of_chars_chars s : PyStr.of_chars (PyStr.chars s) = s.
Proof. apply string_of_list_ascii_of_string. Qed.

Lemma rfind_from_absent i c l : ~ In c l -> PyStr.rfind_from i c l = -1.
Proof.
  revert i. induction l as [|a l IH]; intros i Hc; [done|].
  cbn [PyStr.rfind_from]. rewrite IH by (intros H; apply Hc; by right).
  rewrite bool_decide_eq_false_2 by lia.
  assert (Ascii.eqb a c = false) as ->; [|done].
  apply Ascii.eqb_neq. intros ->. apply Hc. by left.
Qed.

Lemma rfind_from_last i c l l' :
  0 <= i -> ~ In c l' ->
  PyStr.rfind_from i c (l ++ c :: l') = i + Z.of_nat (length l).
Proof.
  revert i. induction l as [|a l IH]; intros i Hi Hc.
  - cbn [app PyStr.rfind_from length]. rewrite (rfind_from_absent _ _ _ Hc).
    rewrite bool_decide_eq_false_2 by lia. rewrite Ascii.eqb_refl. simpl; lia.
  - cbn [app PyStr.rfind_from length]. rewrite IH by (lia || done).
    rewrite bool_decide_eq_true_2 by lia. lia.
Qed.

Lemma splitext_jpg s :
  ~ In "/"%char (PyStr.chars s) ->
  OsPath.splitext (s +:+ ".jpg") =
    if forallb (fun c => Ascii.eqb c ".") (PyStr.chars s)
    then (s +:+ ".jpg", "")
    else (s, ".jpg").
Proof.
  intros Hsep. unfold OsPath.splitext, PyStr.rfind. rewrite chars_app.
  change (PyStr.chars ".jpg") with ("."%char :: PyStr.chars "jpg").
  rewrite (rfind_from_last 0 "." (PyStr.chars s) (PyStr.chars "jpg")); [|lia|].
  2:{ simpl. intros [H|[H|[H|[]]]]; discriminate H. }
  rewrite (rfind_from_absent 0 "/").
  2:{ rewrite in_app_iff. intros [H|H]; [done|].
      simpl in H. destruct H as [H|[H|[H|[H|[]]]]]; discriminate H. }
  rewrite bool_decide_eq_true_2 by lia.
  unfold PyStr.slice.
  replace (Z.to_nat (0 + Z.of_nat (length (PyStr.chars s)) - (-1 + 1)))
    with (length (PyStr.chars s)) by lia.
  replace (Z.to_nat (-1 + 1)) with 0%nat by lia.
  replace (Z.to_nat (0 + Z.of_nat (length (PyStr.chars s))))
    with (length (PyStr.chars s)) by lia.
  rewrite drop_0, take_app_length, drop_app_length.
  destruct (forallb _ (PyStr.chars s)); [done|].
  by rewrite of_chars_chars.
Qed.

Lemma is_jpg_suffix s : is_jpg (s +:+ ".jpg") = true.
Proof.
  unfold is_jpg, PyStr.endswith. rewrite chars_app. apply bool_decide_eq_true_2.
  rewrite length_app.
  replace (length (PyStr.chars s) + length (PyStr.chars ".jpg")
           - length (PyStr.chars ".jpg"))%nat
    with (length (PyStr.chars s)) by lia.
  apply drop_app_length.
Qed.

(** X8.  For a directory entry [s.jpg] (no separator in [s]) the name is
    taken as an image, and its stem is [s], unless [s] is empty or made of
    dots only: then [splitext] finds no extension and the stem is the whole
    name. *)
Theorem stem_of_jpg_name s :
  ~ In "/"%char (PyStr.chars s) ->
  is_jpg (s +:+ ".jpg") = true /\
  (OsPath.splitext (s +:+ ".jpg")).1 =
    if forallb (fun c => Ascii.eqb c ".") (PyStr.chars s)
    then s +:+ ".jpg" else s.
Proof.
  intros Hsep. split; [apply is_jpg_suffix|].
  rewrite (splitext_jpg s Hsep). by destruct (forallb _ _).
Qed.


(** ** Reading back a printed integer *)

Lemma digits_cons_digit c acc b l :
  PyStr.isdigit c = true ->
  PyStr.digits acc b (c :: l) = PyStr.digits (10 * acc + PyStr.digit_value c) true l.
Proof. intros H. cbn [PyStr.digits]. by rewrite H. Qed.

Lemma digits_numeral d acc b :
  d <> Decimal.Nil \/ b = true ->
  PyStr.digits acc b (PyStr.chars (NilEmpty.string_of_uint d))
  = Some (numeral_value acc d).
Proof.
  revert acc b. induction d as [|d IH|d IH|d IH|d IH|d IH|d IH|d IH|d IH|d IH|d IH];
    intros acc b Hb.
  { destruct Hb as [Hb| ->]; [done|reflexivity]. }
  all: cbn [NilEmpty.string_of_uint PyStr.chars list_ascii_of_string numeral_value].
  all: rewrite digits_cons_digit by reflexivity.
  all: apply IH; by right.
Qed.

Lemma numeral_value_acc d acc :
  Z.pos (Pos.of_uint_acc d acc) = numeral_value (Z.pos acc) d.
Proof.
  revert acc. induction d; intros acc; simpl; [done|..];
    rewrite IHd; f_equal; lia.
Qed.

Lemma numeral_value_of_uint d : Z.of_N (Pos.of_uint d) = numeral_value 0 d.
Proof.
  induction d; simpl; [done|done|..]; rewrite numeral_value_acc; f_equal.
Qed.

Lemma numeral_value_to_uint p : numeral_value 0 (Pos.to_uint p) = Z.pos p.
Proof.
  rewrite <- numeral_value_of_uint, DecimalPos.Unsigned.of_to. reflexivity.
Qed.

Lemma numeral_chars d :
  Forall (fun c => PyStr.isdigit c = true)
         (PyStr.chars (NilEmpty.string_of_uint d)).
Proof. induction d; simpl; constructor; done. Qed.

Lemma isdigit_not_space c : PyStr.isdigit c = true -> PyStr.isspace c = false.
Proof.
  unfold PyStr.isdigit, PyStr.isspace. intros H.
  apply andb_prop in H as [H1 H2].
  apply Nat.leb_le in H1. apply Nat.leb_le in H2.
  apply orb_false_intro; [apply andb_false_intro2; apply Nat.leb_gt|
                          apply Nat.eqb_neq]; lia.
Qed.

Lemma isdigit_ascii c :
  PyStr.isdigit c = true -> (nat_of_ascii c <? 128)%nat = true.
Proof.
  unfold PyStr.isdigit. intros H. apply andb_prop in H as [_ H2].
  apply Nat.leb_le in H2. apply Nat.ltb_lt. lia.
Qed.

(** On a pure ASCII string [int] is the ASCII reader, whatever the
    interpreter. *)
Lemma int_of_ascii s : PyStr.isascii s = true -> PyStr.int s = PyStr.int_ascii s.
Proof. intros H. unfold PyStr.int. by rewrite H. Qed.

Lemma isascii_chars s :
  PyStr.isascii s = true <->
  Forall (fun c => (nat_of_ascii c <? 128)%nat = true) (PyStr.chars s).
Proof.
  unfold PyStr.isascii. rewrite forallb_forall, Forall_forall.
  split; intros H c Hc; apply H; by apply list_elem_of_In.
Qed.

Lemma lstrip_id l :
  match l with c :: _ => PyStr.isspace c = false | [] => True end ->
  PyStr.lstrip l = l.
Proof. destruct l as [|c l]; [done|]. simpl. by intros ->. Qed.

Lemma strip_id l :
  Forall (fun c => PyStr.isspace c = false) l -> PyStr.strip l = l.
Proof.
  intros H. unfold PyStr.strip.
  rewrite (lstrip_id l) by (destruct H; done).
  assert (Forall (fun c => PyStr.isspace c = false) (rev l)) as Hr.
  { apply Forall_forall. intros c Hc. rewrite Forall_forall in H. apply H.
    apply list_elem_of_In. apply in_rev. by apply list_elem_of_In. }
  rewrite (lstrip_id (rev l)) by (destruct Hr; done).
  apply rev_involutive.
Qed.

Lemma int_unsigned s c l :
  PyStr.strip (PyStr.chars s) = c :: l ->
  PyStr.isdigit c = true ->
  PyStr.int_ascii s = PyStr.digits 0 false (c :: l).
Proof.
  intros Hs Hc. unfold PyStr.int_ascii. rewrite Hs.
  destruct c as [[] [] [] [] [] [] [] []]; try reflexivity;
    vm_compute in Hc; discriminate Hc.
Qed.

Lemma isascii_numeral d : PyStr.isascii (NilEmpty.string_of_uint d) = true.
Proof.
  apply isascii_chars. eapply Forall_impl; [apply numeral_chars|].
  intros c. apply isdigit_ascii.
Qed.

Lemma int_numeral d :
  d <> Decimal.Nil ->
  PyStr.int (NilEmpty.string_of_uint d) = Some (numeral_value 0 d).
Proof.
  intros Hd. rewrite (int_of_ascii _ (isascii_numeral d)).
  pose proof (numeral_chars d) as Hdig.
  assert (PyStr.strip (PyStr.chars (NilEmpty.string_of_uint d))
          = PyStr.chars (NilEmpty.string_of_uint d)) as Hstrip.
  { apply strip_id. eapply Forall_impl; [exact Hdig|].
    intros c. apply isdigit_not_space. }
  destruct (PyStr.chars (NilEmpty.string_of_uint d)) as [|c l] eqn:Hcs.
  { destruct d; done. }
  apply Forall_cons in Hdig as [Hc _].
  rewrite (int_unsigned _ c l); [|by rewrite Hcs|done].
  rewrite <- Hcs. apply digits_numeral. by left.
Qed.

Lemma int_minus_numeral d :
  d <> Decimal.Nil ->
  PyStr.int (String "-" (NilEmpty.string_of_uint d))
  = Some (- numeral_value 0 d).
Proof.
  intros Hd. rewrite int_of_ascii.
  2:{ apply isascii_chars. constructor; [reflexivity|].
      apply isascii_chars, isascii_numeral. }
  unfold PyStr.int_ascii.
  change (PyStr.chars (String "-" (NilEmpty.string_of_uint d)))
    with ("-"%char :: PyStr.chars (NilEmpty.string_of_uint d)).
  rewrite strip_id.
  - rewrite digits_numeral by (by left). reflexivity.
  - constructor; [reflexivity|]. eapply Forall_impl; [apply numeral_chars|].
    intros c. apply isdigit_not_space.
Qed.

Lemma NilZero_nonnil d :
  d <> Decimal.Nil -> NilZero.string_of_uint d = NilEmpty.string_of_uint d.
Proof. by destruct d. Qed.

Lemma int_str n : PyStr.int (PyStr.str n) = Some n.
Proof.
  destruct n as [|p|p].
  - reflexivity.
  - change (PyStr.str (Z.pos p)) with (NilZero.string_of_uint (Pos.to_uint p)).
    pose proof (DecimalPos.Unsigned.to_uint_nonnil p) as Hd.
    rewrite (NilZero_nonnil _ Hd), (int_numeral _ Hd).
    by rewrite numeral_value_to_uint.
  - change (PyStr.str (Z.neg p))
      with (String "-" (NilZero.string_of_uint (Pos.to_uint p))).
    pose proof (DecimalPos.Unsigned.to_uint_nonnil p) as Hd.
    rewrite (NilZero_nonnil _ Hd), (int_minus_numeral _ Hd).
    by rewrite numeral_value_to_uint.
Qed.

(** The characters of a printed integer: digits, after a minus sign for a
    negative one. *)
Lemma str_chars n :
  exists c l,
    PyStr.chars (PyStr.str n) = c :: l /\
    (PyStr.isdigit c = true \/ c = "-"%char) /\
    Forall (fun c => PyStr.isdigit c = true) l.
Proof.
  destruct n as [|p|p].
  - exists "0"%char, []. split_and!; [reflexivity|by left|constructor].
  - change (PyStr.str (Z.pos p)) with (NilZero.string_of_uint (Pos.to_uint p)).
    pose proof (DecimalPos.Unsigned.to_uint_nonnil p) as Hd.
    rewrite (NilZero_nonnil _ Hd).
    pose proof (numeral_chars (Pos.to_uint p)) as Hdig.
    destruct (PyStr.chars (NilEmpty.string_of_uint (Pos.to_uint p)))
      as [|c l] eqn:Hcs.
    { destruct (Pos.to_uint p); done. }
    apply Forall_cons in Hdig as [Hc Hl]. exists c, l. auto.
  - change (PyStr.str (Z.neg p))
      with (String "-" (NilZero.string_of_uint (Pos.to_uint p))).
    pose proof (DecimalPos.Unsigned.to_uint_nonnil p) as Hd.
    rewrite (NilZero_nonnil _ Hd).
    exists "-"%char, (PyStr.chars (NilEmpty.string_of_uint (Pos.to_uint p))).
    split_and!; [reflexivity|by right|apply numeral_chars].
Qed.

Lemma digits_or_minus_stem s c l :
  PyStr.chars s = c :: l ->
  (PyStr.isdigit c = true \/ c = "-"%char) ->
  Forall (fun c => PyStr.isdigit c = true) l ->
  (OsPath.splitext (s +:+ ".jpg")).1 = s.
Proof.
  intros Hs Hc Hl.
  assert (forall a, PyStr.isdigit a = true \/ a = "-"%char ->
                    a <> "/"%char /\ a <> "."%char) as Hne.
  { intros a [Ha| ->]; [|split; discriminate].
    split; intros ->; vm_compute in Ha; discriminate Ha. }
  rewrite splitext_jpg.
  - rewrite Hs. cbn [forallb].
    destruct (Hne c Hc) as [_ Hdot].
    apply Ascii.eqb_neq in Hdot. by rewrite Hdot.
  - rewrite Hs. intros [Heq|Hin].
    + destruct (Hne _ Hc) as [H _]. by apply H.
    + rewrite Forall_forall in Hl. apply list_elem_of_In in Hin.
      destruct (Hne "/"%char (or_introl (Hl _ Hin))) as [H _]. done.
Qed.

(** X9.  [int] reads back what [str] prints.  CPython 3.11 and later
    refuse, by default, to convert between [str] and [int] beyond 4300
    digits; for every integer [n] within that limit [int(str(n))] is [n],
    and the file named by the printed integer, [<n>.jpg], is taken as an
    image and sorted under the key [n]. *)
Theorem printed_integer_reads_back n :
  Z.abs n < 10 ^ 4300 ->
  PyStr.int (PyStr.str n) = Some n /\
  is_jpg (PyStr.str n +:+ ".jpg") = true /\
  stem_key (PyStr.str n +:+ ".jpg") = Some n.
Proof.
  intros _. split_and!; [apply int_str|apply is_jpg_suffix|].
  destruct (str_chars n) as (c & l & Hs & Hc & Hl).
  unfold stem_key. rewrite (digits_or_minus_stem _ c l Hs Hc Hl). apply int_str.
Qed.

(** X10.  Leading zeros do not matter: a file whose stem is a non-empty
    string of decimal digits, such as [000012.jpg], is taken as an image
    and sorted under the integer the digits spell. *)
Theorem padded_name_key d :
  d <> Decimal.Nil ->
  is_jpg (NilEmpty.string_of_uint d +:+ ".jpg") = true /\
  stem_key (NilEmpty.string_of_uint d +:+ ".jpg") = Some (Z.of_uint d).
Proof.
  intros Hd. split; [apply is_jpg_suffix|].
  pose proof (numeral_chars d) as Hdig.
  destruct (PyStr.chars (NilEmpty.string_of_uint d)) as [|c l] eqn:Hcs.
  { destruct d; done. }
  apply Forall_cons in Hdig as [Hc Hl].
  unfold stem_key. rewrite (digits_or_minus_stem _ c l Hcs (or_introl Hc) Hl).
  rewrite (int_numeral _ Hd). unfold Z.of_uint.
  by rewrite numeral_value_of_uint.
Qed.

(** ** Files numbered from 1 without a gap *)

Lemma sorted_perm_unique (l1 l2 : list Z) :
  StronglySorted Z.le l1 -> StronglySorted Z.le l2 ->
  Permutation l1 l2 -> l1 = l2.
Proof.
  revert l2. induction l1 as [|x l1 IH]; intros l2 H1 H2 Hp.
  - by apply Permutation_nil in Hp.
  - destruct l2 as [|y l2].
    { by apply Permutation_sym, Permutation_nil in Hp. }
    apply StronglySorted_inv in H1 as [H1 Hx].
    apply StronglySorted_inv in H2 as [H2 Hy].
    assert (x = y) as ->.
    { assert (In y (x :: l1)) as Hyin.
      { eapply Permutation_in; [apply Permutation_sym, Hp|by left]. }
      assert (In x (y :: l2)) as Hxin.
      { eapply Permutation_in; [apply Hp|by left]. }
      rewrite Forall_forall in Hx, Hy.
      destruct Hyin as [->|Hyin]; [done|]. destruct Hxin as [->|Hxin]; [done|].
      apply list_elem_of_In in Hyin, Hxin.
      specialize (Hx y Hyin). specialize (Hy x Hxin). lia. }
    f_equal. apply IH; [done|done|]. by apply Permutation_cons_inv in Hp.
Qed.

Lemma seqZ_sorted m n : StronglySorted Z.le (seqZ m n).
Proof.
  destruct (Z_le_gt_dec n 0) as [Hn|Hn].
  { rewrite seqZ_nil by done. constructor. }
  rewrite <- (Z2Nat.id n) by lia. generalize (Z.to_nat n) as k. clear.
  intros k. revert m. induction k as [|k IH]; intros m.
  { rewrite seqZ_nil by done. constructor. }
  rewrite seqZ_cons by lia.
  replace (Z.pred (Z.of_nat (S k))) with (Z.of_nat k) by lia.
  constructor; [apply IH|]. apply Forall_seqZ. intros; lia.
Qed.

Lemma keys_sorted {A} (key : A -> option Z) (l : list A) (ks : list Z) :
  StronglySorted (key_le key) l ->
  map key l = map Some ks ->
  StronglySorted Z.le ks.
Proof.
  intros Hs. revert ks. induction Hs as [|x l Hs IH Hx]; intros ks Hk.
  - destruct ks; [constructor|done].
  - destruct ks as [|k ks]; [done|]. simpl in Hk. injection Hk as Hkx Hk.
    constructor; [by apply IH|].
    apply Forall_forall. intros k' Hk'. apply list_elem_of_In in Hk'.
    assert (In (Some k') (map key l)) as Hin.
    { rewrite Hk. by apply in_map. }
    apply in_map_iff in Hin as (y & Hy & Hyin).
    rewrite Forall_forall in Hx. apply list_elem_of_In in Hyin.
    destruct (Hx y Hyin) as (ka & kb & Ha & Hb & Hle). congruence.
Qed.

(** X11.  When the stems of the [.jpg] names are the integers 1 to [n],
    each once, the file at position [i] of the frame sequence is the file
    numbered [i]; so in a run over such a directory every written frame is
    the decoded image of the file whose number is the frame's index, and
    the rows of the log are drawn on the image their [frame] names. *)
Theorem gapless_numbering w txt dir out fps df names n :
  read_csv w txt = DataFrame df ->
  listdir w dir = Some names ->
  Permutation (map stem_key (List.filter is_jpg names)) (map Some (seqZ 1 n)) ->
  exists img_files,
    list_img_files names = Some img_files /\
    length img_files = Z.to_nat n /\
    (forall (i : nat) f,
        img_files !! i = Some f -> stem_key f = Some (Z.of_nat i + 1)) /\
    (forall wr fr,
        video (visualize_tracking_results w txt dir out fps) = Some wr ->
        In fr (written wr) ->
        exists f,
          In f names /\
          stem_key f = Some (frame_idx fr) /\
          imread w (OsPath.join dir f) = Some (image fr)).
Proof.
  intros Hcsv Hls Hstems.
  assert (Forall (fun f => is_Some (stem_key f)) (List.filter is_jpg names)) as Hall.
  { apply Forall_forall. intros f Hf. apply list_elem_of_In in Hf.
    assert (In (stem_key f) (map Some (seqZ 1 n))) as Hin.
    { eapply Permutation_in; [exact Hstems|]. by apply in_map. }
    apply in_map_iff in Hin as (k & <- & _). by eexists. }
  destruct (sorted_total stem_key _ Hall) as [img_files Hfiles].
  fold (list_img_files names) in Hfiles.
  pose proof (sorted_perm stem_key _ _ Hfiles) as Hperm.
  pose proof (sorted_ordered stem_key _ _ Hfiles) as Hord.
  assert (Permutation (map stem_key img_files) (map Some (seqZ 1 n))) as Hkeys.
  { rewrite <- Hstems. apply Permutation_map, Permutation_sym, Hperm. }
  apply Permutation_map_inv in Hkeys as (ks & Hks & Hpks).
  assert (ks = seqZ 1 n) as ->.
  { symmetry. apply sorted_perm_unique; [apply seqZ_sorted| |done].
    by apply (keys_sorted stem_key img_files). }
  assert (forall (i : nat) f,
            img_files !! i = Some f -> stem_key f = Some (Z.of_nat i + 1)) as Hpos.
  { intros i f Hi.
    assert (map stem_key img_files !! i = Some (stem_key f)) as Hki.
    { change (map stem_key img_files) with (stem_key <$> img_files).
      by rewrite list_lookup_fmap, Hi. }
    rewrite Hks in Hki.
    change (map Some (seqZ 1 n)) with (Some <$> seqZ 1 n) in Hki.
    rewrite list_lookup_fmap in Hki.
    destruct (seqZ 1 n !! i) as [k|] eqn:Hk; [|done].
    apply lookup_seqZ in Hk as [-> _]. simpl in Hki.
    injection Hki as <-. f_equal. lia. }
  exists img_files. split_and!.
  - exact Hfiles.
  - rewrite <- (length_map stem_key), Hks, length_map. apply length_seqZ.
  - exact Hpos.
  - intros wr fr Hv Hfr.
    rewrite (run_written _ _ _ _ _ _ _ _ _ Hcsv Hls Hfiles Hv) in Hfr.
    apply written_frame_origin in Hfr as (f & Hle & Hf & Himg & _).
    exists f. split_and!; [|rewrite (Hpos _ _ Hf); f_equal; lia|done].
    assert (In f (List.filter is_jpg names)) as Hin.
    { eapply Permutation_in; [apply Permutation_sym, Hperm|].
      apply list_elem_of_In, list_elem_of_lookup. eauto. }
    by apply filter_In in Hin as [Hin _].
Qed.

(** ** Stems that are no integer *)

Lemma digits_foreign acc b l c :
  In c l -> PyStr.isdigit c = false -> c <> "_"%char ->
  PyStr.digits acc b l = None.
Proof.
  intros Hin Hd Hu. revert acc b.
  induction l as [|a l IH]; intros acc b; [done|].
  cbn [PyStr.digits]. destruct Hin as [->|Hin].
  - rewrite Hd. apply Ascii.eqb_neq in Hu. by rewrite Hu.
  - destruct (PyStr.isdigit a); [by apply IH|].
    destruct (Ascii.eqb a "_"); [|done]. destruct b; [by apply IH|done].
Qed.

Lemma In_lstrip c l : In c l -> PyStr.isspace c = false -> In c (PyStr.lstrip l).
Proof.
  intros Hin Hc. induction l as [|a l IH]; [done|].
  cbn [PyStr.lstrip]. destruct (PyStr.isspace a) eqn:Ha; [|done].
  destruct Hin as [->|Hin]; [congruence|by apply IH].
Qed.

Lemma In_strip c l : In c l -> PyStr.isspace c = false -> In c (PyStr.strip l).
Proof.
  intros Hin Hc. unfold PyStr.strip.
  apply in_rev. rewrite rev_involutive.
  apply In_lstrip; [|done]. apply in_rev. rewrite rev_involutive.
  by apply In_lstrip.
Qed.

Lemma foreign_char_inv c :
  foreign_char c = true ->
  PyStr.isdigit c = false /\ PyStr.isspace c = false /\
  c <> "_"%char /\ c <> "-"%char /\ c <> "+"%char.
Proof.
  unfold foreign_char. rewrite andb_true_iff, negb_true_iff, !orb_false_iff.
  intros (_ & (((? & ?) & ?) & ?) & ?).
  split_and!; try done; by apply Ascii.eqb_neq.
Qed.

Lemma int_foreign s c :
  PyStr.isascii s = true ->
  In c (PyStr.chars s) -> foreign_char c = true -> PyStr.int s = None.
Proof.
  intros Hascii Hin Hc. rewrite (int_of_ascii _ Hascii).
  apply foreign_char_inv in Hc as (Hd & Hsp & Hu & Hm & Hp).
  apply (In_strip _ _ Hin) in Hsp. unfold PyStr.int_ascii.
  destruct (PyStr.strip (PyStr.chars s)) as [|a l]; [done|].
  assert (PyStr.digits 0 false (a :: l) = None) as H1.
  { by apply (digits_foreign _ _ _ c). }
  assert (a = "-"%char \/ a = "+"%char -> PyStr.digits 0 false l = None) as H2.
  { intros Ha. apply (digits_foreign _ _ _ c); [|done|done].
    destruct Hsp as [->|Hl]; [|done]. destruct Ha; congruence. }
  destruct a as [[] [] [] [] [] [] [] []];
    first [ exact H1
          | cbv beta iota; rewrite (H2 (or_introl eq_refl)); reflexivity
          | cbv beta iota; rewrite (H2 (or_intror eq_refl)); reflexivity ].
Qed.

(** X12.  A [.jpg] entry whose stem is pure ASCII and holds a character
    that is neither a digit, an underscore, a sign nor white space
    ([cover.jpg], say) has no sort key, and one such entry is enough to end
    the run: [ValueError] escapes from line 42 and no writer is opened,
    whatever the other files are. *)
Theorem stray_jpg_stops_run w txt dir out fps df names s c :
  read_csv w txt = DataFrame df ->
  listdir w dir = Some names ->
  In (s +:+ ".jpg") names ->
  ~ In "/"%char (PyStr.chars s) ->
  PyStr.isascii s = true ->
  In c (PyStr.chars s) ->
  foreign_char c = true ->
  let r := visualize_tracking_results w txt dir out fps in
  stem_key (s +:+ ".jpg") = None /\ status r = ValueError /\
  stream r = None /\ video r = None.
Proof.
  intros Hcsv Hls Hin Hsep Hascii Hc Hforeign r.
  assert (stem_key (s +:+ ".jpg") = None) as Hkey.
  { unfold stem_key. rewrite (splitext_jpg s Hsep).
    destruct (forallb _ (PyStr.chars s)); cbn [fst].
    - apply (int_foreign _ c); [| |done].
      + apply isascii_chars. rewrite chars_app. apply Forall_app. split.
        * by apply isascii_chars.
        * repeat constructor.
      + rewrite chars_app, in_app_iff. by left.
    - by apply (int_foreign _ c). }
  assert (list_img_files names = None) as Hfiles.
  { apply list_img_files_None. exists (s +:+ ".jpg").
    split_and!; [done|apply is_jpg_suffix|done]. }
  subst r. unfold visualize_tracking_results, video.
  rewrite Hcsv, Hls, Hfiles. by split_and!.
Qed.

(** ** The order of the listing *)

Lemma filter_Permutation_list {A} (p : A -> bool) (l l' : list A) :
  Permutation l l' -> Permutation (List.filter p l) (List.filter p l').
Proof.
  induction 1 as [|x l l' _ IH|x y l|l l' l'' _ IH1 _ IH2]; simpl.
  - constructor.
  - destruct (p x); [by constructor|done].
  - destruct (p x), (p y); try done. apply perm_swap.
  - by etransitivity.
Qed.

Lemma key_sorted_unique {A} (key : A -> option Z) (l1 l2 : list A) :
  StronglySorted (key_le key) l1 -> StronglySorted (key_le key) l2 ->
  Permutation l1 l2 -> List.NoDup (map key l1) -> l1 = l2.
Proof.
  revert l2. induction l1 as [|x l1 IH]; intros l2 H1 H2 Hp Hnd.
  - by apply Permutation_nil in Hp.
  - destruct l2 as [|y l2].
    { by apply Permutation_sym, Permutation_nil in Hp. }
    apply StronglySorted_inv in H1 as [H1 Hx].
    apply StronglySorted_inv in H2 as [H2 Hy].
    simpl in Hnd. apply List.NoDup_cons_iff in Hnd as [Hnot Hnd].
    assert (x = y) as ->.
    { assert (In y (x :: l1)) as Hyin.
      { eapply Permutation_in; [apply Permutation_sym, Hp|by left]. }
      assert (In x (y :: l2)) as Hxin.
      { eapply Permutation_in; [apply Hp|by left]. }
      destruct Hyin as [->|Hyin]; [done|]. destruct Hxin as [->|Hxin]; [done|].
      rewrite Forall_forall in Hx, Hy.
      destruct (Hx y (proj2 (list_elem_of_In _ _) Hyin))
        as (kx & ky & Hkx & Hky & Hle).
      destruct (Hy x (proj2 (list_elem_of_In _ _) Hxin))
        as (ky' & kx' & Hky' & Hkx' & Hle').
      exfalso. apply Hnot. apply in_map_iff. exists y. split; [|done].
      rewrite Hkx, Hky. f_equal. rewrite Hkx in Hkx'. rewrite Hky in Hky'.
      injection Hkx' as <-. injection Hky' as <-. lia. }
    f_equal. apply IH; [done|done| |done]. by apply Permutation_cons_inv in Hp.
Qed.

Lemma list_img_files_listing names names' :
  Permutation names names' ->
  List.NoDup (map stem_key (List.filter is_jpg names)) ->
  list_img_files names' = list_img_files names.
Proof.
  intros Hp Hnd.
  pose proof (filter_Permutation_list is_jpg _ _ Hp) as Hpf.
  destruct (list_img_files names) as [l|] eqn:Hl.
  - assert (Forall (fun f => is_Some (stem_key f)) (List.filter is_jpg names'))
      as Hall.
    { rewrite <- Hpf. by apply (sorted_keys_defined stem_key _ l). }
    destruct (sorted_total stem_key _ Hall) as [l' Hl'].
    fold (list_img_files names') in Hl'. rewrite Hl'. f_equal.
    symmetry. apply (key_sorted_unique stem_key).
    + by apply (sorted_ordered stem_key (List.filter is_jpg names)).
    + by apply (sorted_ordered stem_key (List.filter is_jpg names')).
    + rewrite <- (sorted_perm stem_key _ _ Hl), <- (sorted_perm stem_key _ _ Hl').
      exact Hpf.
    + eapply Permutation_NoDup; [|exact Hnd].
      apply Permutation_map. by apply (sorted_perm stem_key).
  - apply list_img_files_None in Hl as (f & Hf & Hjpg & Hn).
    apply list_img_files_None. exists f. split_and!; try done.
    eapply Permutation_in; [exact Hp|done].
Qed.

Lemma iterate_ext w w' colors df dir its st :
  (forall p, imread w p = imread w' p) ->
  iterate w colors df dir its st = iterate w' colors df dir its st.
Proof.
  intros Hread. revert st. induction its as [|[idx f] its IH]; intros st; [done|].
  cbn [iterate]. unfold loop_body. rewrite Hread.
  destruct (imread w' (OsPath.join dir f)) as [img|]; [|apply IH].
  destruct (forallb cv2_accepts _); [apply IH|done].
Qed.

(** X13.  The order in which the directory is listed does not matter as
    long as no two [.jpg] names spell the same integer: the run over any
    reordering of the listing is the same run, status, warnings and
    frames. *)
Theorem listing_order_irrelevant w txt dir out fps names names' :
  listdir w dir = Some names ->
  Permutation names names' ->
  List.NoDup (map stem_key (List.filter is_jpg names)) ->
  visualize_tracking_results (with_listdir w names') txt dir out fps
  = visualize_tracking_results w txt dir out fps.
Proof.
  intros Hls Hp Hnd. unfold visualize_tracking_results.
  cbn [with_listdir read_csv listdir listdir_error imread random_state on_disk].
  rewrite Hls, (list_img_files_listing _ _ Hp Hnd).
  destruct (read_csv w txt) as [| | |df]; [done..|].
  destruct (list_img_files names) as [[|first rest]|]; [done| |done].
  destruct (imread w (OsPath.join dir first)) as [img0|]; [|done].
  cbv zeta. unfold render_loop.
  rewrite (iterate_ext (with_listdir w names') w) by done.
  reflexivity.
Qed.

(** ** Rows as [iterrows] hands them out *)


(** ** A drawing call that raises *)

Lemma enumerate_split {A} start (l : list A) pre it post :
  enumerate start l = (pre ++ it :: post)%list ->
  exists (n : nat) f,
    it = (start + Z.of_nat n, f) /\ l !! n = Some f /\
    pre = enumerate start (take n l).
Proof.
  revert start l. induction pre as [|p pre IH]; intros start l Hl.
  - destruct l as [|f l]; [done|]. cbn [enumerate app] in Hl.
    injection Hl as <- _. exists 0%nat, f. split_and!; [|done..].
    f_equal. lia.
  - destruct l as [|x l]; [done|]. cbn [enumerate app] in Hl.
    injection Hl as <- Hl. apply IH in Hl as (n & f & -> & Hn & ->).
    exists (S n), f. split_and!; [|done..]. f_equal. lia.
Qed.

Lemma drawing_error_stream w txt dir out fps :
  let r := visualize_tracking_results w txt dir out fps in
  status r = DrawingError ->
  exists wr, stream r = Some wr /\ released wr = false.
Proof.
  intros r Hst. destruct (stream r) as [wr|] eqn:Hs.
  - exists wr. split; [done|].
    destruct (run_stream_inv _ _ _ _ _ _ Hs)
      as (df & names & first & rest & img0 & pre & post & _ & _ & _ & _ & _ & _
          & _ & _ & _ & _ & _ & _ & Hend).
    fold r in Hend. destruct (released wr); [|done].
    destruct Hend as [_ Hrep]. rewrite Hst in Hrep.
    destruct (report_completes (on_disk w wr)) as [H|[H|H]]; congruence.
  - exfalso. revert Hs Hst. subst r. unfold visualize_tracking_results.
    destruct (read_csv w txt) as [| | |df]; [done..|].
    destruct (listdir w dir) as [names|];
      [|destruct (listdir_error w dir); done].
    destruct (list_img_files names) as [[|first rest]|]; [done| |done].
    destruct (imread w (OsPath.join dir first)); [|done].
    cbv zeta. destruct (render_loop _ _ _ _ _ _); discriminate.
Qed.

(** X15.  A run that ends in a drawing call never releases its writer, so
    it leaves no finished video.  The call that raised was made for a row
    of the log whose box does not fit the 32-bit coordinates of OpenCV, on
    an image that decodes; the frames of the files before that image were
    handed to the writer, the warnings for those of them that do not decode
    were printed, and nothing after them was read. *)
Theorem drawing_error_stops_run w txt dir out fps :
  let r := visualize_tracking_results w txt dir out fps in
  status r = DrawingError ->
  video r = None /\
  exists df names img_files wr (n : nat) f img row,
    read_csv w txt = DataFrame df /\
    listdir w dir = Some names /\
    list_img_files names = Some img_files /\
    img_files !! n = Some f /\
    imread w (OsPath.join dir f) = Some img /\
    In row df /\ frame row = Z.of_nat n + 1 /\
    fits_int32 (as_read df row) = false /\
    stream r = Some wr /\
    released wr = false /\
    written wr
      = omap (decoded w (build_colors df (random_state w)) df dir)
             (enumerate 1 (take n img_files)) /\
    warnings r = omap (skipped w dir) (enumerate 1 (take n img_files)).
Proof.
  intros r Hst.
  destruct (drawing_error_stream _ _ _ _ _ Hst) as (wr & Hs & Hrel).
  fold r in Hs. split.
  { unfold video. by rewrite Hs, Hrel. }
  destruct (run_stream_inv _ _ _ _ _ _ Hs)
    as (df & names & first & rest & img0 & pre & post & Hcsv & Hls & Hfiles & H0
        & Hsplit & Hw & Hwarn & _ & _ & _ & _ & _ & Hend).
  fold r in Hwarn, Hend. rewrite Hrel in Hend.
  destruct Hend as (_ & idx & f & img & post' & -> & Himg & Hacc).
  apply enumerate_split in Hsplit as (n & f' & [= -> <-] & Hn & ->).
  apply unacceptable_row in Hacc as (row & Hrow & Hframe & Hfit).
  exists df, names, (first :: rest), wr, n, f, img, row.
  split_and!; try done. rewrite Hframe. lia.
Qed.
End Properties.

(** * The concrete runs

    The properties above hold for every interpreter.  What follows
    evaluates the model on the runs of [Demo] and [Mot], under the
    interpreter [Demo.interpreter]. *)

#[local] Existing Instance Demo.interpreter.

(** ** Strings and paths *)

Example splitext_10 : OsPath.splitext "10.jpg" = ("10", ".jpg").
Proof. reflexivity. Qed.

Example splitext_hidden : OsPath.splitext ".jpg" = (".jpg", "").
Proof. reflexivity. Qed.

Example int_samples :
  PyStr.int "10" = Some 10 /\ PyStr.int "007" = Some 7 /\
  PyStr.int " -1_000 " = Some (-1000) /\ PyStr.int "frame12" = None /\
  PyStr.int "" = None /\ PyStr.int "1__0" = None.
Proof. repeat split; reflexivity. Qed.

(** Around an ASCII literal [int] skips the characters 9 to 13 and the
    blank, and no other: the separators 28 to 31 are refused. *)
Example int_white_space :
  PyStr.int (String (ascii_of_nat 9) "7") = Some 7 /\
  PyStr.int (String (ascii_of_nat 13) "7") = Some 7 /\
  PyStr.int (String (ascii_of_nat 28) "7") = None /\
  PyStr.int (String (ascii_of_nat 31) "7") = None.
Proof. repeat split; reflexivity. Qed.

(** A name that is not pure ASCII is read by the interpreter: the file
    whose stem is the Arabic-Indic digit three (U+0663, the bytes D9 A3) is
    an image and has the key 3. *)
Example int_arabic_indic :
  let name := String (ascii_of_nat 217) (String (ascii_of_nat 163) ".jpg") in
  is_jpg name = true /\ stem_key name = Some 3.
Proof. split; reflexivity. Qed.

Example str_samples : PyStr.str 3 = "3" /\ PyStr.str 0 = "0" /\ PyStr.str (-12) = "-12".
Proof. repeat split; reflexivity. Qed.

(** A float holds the integers up to 2^53; the next one is rounded. *)
Example to_float64_samples :
  to_float64 (2 ^ 53) = 2 ^ 53 /\
  to_float64 (2 ^ 53 + 1) = 2 ^ 53 /\
  to_float64 (2 ^ 53 + 2) = 2 ^ 53 + 2 /\
  to_float64 (2 ^ 53 + 3) = 2 ^ 53 + 4 /\
  to_float64 (- (2 ^ 53 + 1)) = - 2 ^ 53 /\
  to_float64 (2 ^ 63 - 1) = 2 ^ 63.
Proof. repeat split; reflexivity. Qed.

(** ** The runs *)

Example demo_files_sorted : list_img_files Demo.names = Some Demo.img_files.
Proof. reflexivity. Qed.

Example demo_run :
  Demo.run = {| status := Success;
                warnings := [ "img1/2.jpg" ];
                stream := Some Demo.closed |}.
Proof. vm_compute. reflexivity. Qed.

Example demo_run_video : video Demo.run = Some Demo.closed.
Proof. vm_compute. reflexivity. Qed.

Example demo_drawable : drawable Demo.log.
Proof. repeat constructor. Qed.

(** The log [wide.txt] has, on frame 3, a box whose left edge is 2^31: the
    first image is written, the second is skipped, the third raises in
    [cv2.rectangle], and the run ends there, the writer not released. *)
Example demo_run_wide :
  visualize_tracking_results Demo.world "wide.txt" "img1" "out.mp4" 30
  = {| status := DrawingError;
       warnings := [ "img1/2.jpg" ];
       stream :=
         Some {| filename := "out.mp4"; fourcc := "mp4v"; writer_fps := 30;
                 frameSize := (640, 480);
                 written := [ {| frame_idx := 1; image := Demo.picture 1;
                                 overlay := [] |} ];
                 released := false |} |}.
Proof. vm_compute. reflexivity. Qed.

(** ** The claims *)



Lemma C2_frames_follow_numeric_order_witness :
  list_img_files Demo.names
    = Some [ "1.jpg"; "2.jpg"; "3.jpg"; "4.jpg"; "10.jpg" ] /\
  exists wr fr,
    video Demo.run = Some wr /\
    In fr (written wr) /\
    frame_idx fr = 5 /\
    image fr = Demo.picture 10 /\
    overlay fr =
      flat_map (draw_row (build_colors Demo.log (random_state Demo.world)))
        (iterrows Demo.log
           [ Demo.row 5 3 100 200 50 80; Demo.row 5 8 10 20 30 40 ]).
Proof.
  destruct (C2_frames_follow_numeric_order Demo.world "det.txt" "img1" "out.mp4"
              30 Demo.log Demo.names)
    as (img_files & Hfiles & _ & _ & Hrun & _).
  - simpl. repeat constructor; eexists; reflexivity.
  - reflexivity.
  - reflexivity.
  - change (list_img_files Demo.names) with (Some Demo.img_files) in Hfiles.
    injection Hfiles as <-. split; [reflexivity|].
    destruct (Hrun "1.jpg" (Demo.picture 1) eq_refl eq_refl)
      as (wr & Hv & Hframes).
    { repeat constructor. }
    destruct (Hframes 4%nat "10.jpg" (Demo.picture 10) eq_refl eq_refl)
      as (fr & Hin & Hidx & Himg & Hov).
    exists wr, fr. split_and!; [exact Hv|exact Hin|exact Hidx|exact Himg|exact Hov].
Defined.

Lemma C3_same_id_same_color_witness :
  exists colors : gmap Z Color,
    colors = build_colors Demo.log (random_state Demo.world) /\
    (forall fr,
        In fr (written Demo.closed) ->
        overlay fr =
          flat_map (draw_row colors)
                   (iterrows Demo.log
                      (detections_in_frame Demo.log (frame_idx fr)))) /\
    (forall fr1 fr2 r1 r2,
        In fr1 (written Demo.closed) -> In fr2 (written Demo.closed) ->
        In r1 Demo.log -> In r2 Demo.log ->
        frame r1 = frame_idx fr1 -> frame r2 = frame_idx fr2 ->
        id r1 = id r2 ->
        exists c,
          incl (box_and_label (as_read Demo.log r1) c) (overlay fr1) /\
          incl (box_and_label (as_read Demo.log r2) c) (overlay fr2) /\
          (as_read Demo.log r1 = r1 -> as_read Demo.log r2 = r2 ->
           colors !! id r1 = Some c /\
           incl (box_and_label r1 c) (overlay fr1) /\
           incl (box_and_label r2 c) (overlay fr2))).
Proof.
  apply (C3_same_id_same_color Demo.world "det.txt" "img1" "out.mp4" 30).
  - reflexivity.
  - vm_compute. reflexivity.
Defined.

(** C5, on the code.  The log [empty.txt] is parsed into a table without
    rows.  The run over it does not end with [EmptyInput]: it opens the
    writer, writes the four images that decode, none of them annotated,
    and ends with [Success]. *)
Theorem C5_zero_row_log_is_rendered :
  let r := visualize_tracking_results Demo.world "empty.txt" "img1" "out.mp4" 30 in
  read_csv Demo.world "empty.txt" = DataFrame [] /\
  status r = Success /\
  status r <> EmptyInput /\
  exists wr,
    video r = Some wr /\
    length (written wr) = 4%nat /\
    Forall (fun fr => overlay fr = []) (written wr).
Proof.
  split_and!; [reflexivity|reflexivity|discriminate|].
  eexists. split_and!; [reflexivity|reflexivity|].
  repeat constructor.
Qed.

(** C6, as stated, fails: in the run over [wide.txt] the first image
    decodes and the second does not, but the run does not go on to the
    end: the third frame has a box OpenCV refuses, the exception leaves the
    loop, and the writer is never released. *)
Lemma C6_counterexample : ~ skipping_never_stops_the_run.
Proof.
  intros H.
  destruct (H Demo.interpreter Demo.world "wide.txt" "img1" "out.mp4" 30 Demo.wide
              Demo.names "1.jpg" [ "2.jpg"; "3.jpg"; "4.jpg"; "10.jpg" ]
              (Demo.picture 1) eq_refl eq_refl eq_refl eq_refl)
    as (wr & Hs & Hrel & _).
  - apply Exists_cons_hd. reflexivity.
  - vm_compute in Hs. injection Hs as <-. discriminate Hrel.
Qed.

Lemma C6_undecodable_frames_are_skipped_witness :
  let r := visualize_tracking_results Demo.world "det.txt" "img1" "out.mp4" 30 in
  let bad := List.filter (undecodable Demo.world "img1") Demo.img_files in
  bad = [ "2.jpg" ] /\
  exists wr,
    video r = Some wr /\
    released wr = true /\
    (status r = Success \/ status r = EmptyOutput \/ status r = MissingOutput) /\
    warnings r = map (OsPath.join "img1") bad /\
    (length (written wr) + length bad = length Demo.img_files)%nat /\
    (forall (n : nat) img_file,
        Demo.img_files !! n = Some img_file ->
        imread Demo.world (OsPath.join "img1" img_file) = None ->
        forall fr, In fr (written wr) -> frame_idx fr <> Z.of_nat n + 1) /\
    (forall fr,
        In fr (written wr) ->
        exists img_file,
          Demo.img_files !! Z.to_nat (frame_idx fr - 1) = Some img_file /\
          imread Demo.world (OsPath.join "img1" img_file) = Some (image fr)).
Proof.
  split; [reflexivity|].
  apply (C6_undecodable_frames_are_skipped Demo.world "det.txt" "img1" "out.mp4" 30
           Demo.log Demo.names "1.jpg" [ "2.jpg"; "3.jpg"; "4.jpg"; "10.jpg" ]
           (Demo.picture 1)); try reflexivity.
  repeat constructor.
Defined.

(** C8, as stated, fails: in the directory [tail] the first file of the
    sorted sequence, [2.jpg], does not decode and the second, [3.jpg],
    does; the run stops at line 55 without a writer. *)
Lemma C8_counterexample : ~ size_from_earliest_decodable.
Proof.
  intros H.
  destruct (H Demo.interpreter Demo.world "det.txt" "tail" "out.mp4" 30 Demo.log
              [ "3.jpg"; "2.jpg" ] [ "2.jpg"; "3.jpg" ] 1%nat "3.jpg"
              (Demo.picture 3) eq_refl eq_refl eq_refl eq_refl eq_refl)
    as (wr & Hv & _).
  - intros [|m] f Hm Hf; [|lia]. injection Hf as <-. reflexivity.
  - vm_compute in Hv. discriminate Hv.
Qed.

Lemma C8_size_from_first_file_witness :
  (exists wr,
      stream Demo.run = Some wr /\
      frameSize wr = (640, 480) /\
      (drawable Demo.log -> video Demo.run = Some wr))
  /\
  (let r := visualize_tracking_results Demo.world "det.txt" "tail" "out.mp4" 30 in
   stream r = None /\ video r = None /\ status r = FirstImageUnreadable).
Proof.
  split.
  - exact (C8_size_from_first_file Demo.world "det.txt" "img1" "out.mp4" 30
             Demo.log Demo.names "1.jpg" [ "2.jpg"; "3.jpg"; "4.jpg"; "10.jpg" ]
             eq_refl eq_refl eq_refl).
  - exact (C8_size_from_first_file Demo.world "det.txt" "tail" "out.mp4" 30
             Demo.log [ "3.jpg"; "2.jpg" ] "2.jpg" [ "3.jpg" ]
             eq_refl eq_refl eq_refl).
Defined.

Lemma C9_no_jpg_no_output_witness :
  let r := visualize_tracking_results Demo.world "det.txt" "void" "out.mp4" 30 in
  stream r = None /\
  video r = None /\
  (status r = NoImages \/ status r = EmptyInput \/ status r = NotFound
   \/ status r = ReadError) /\
  (forall df, read_csv Demo.world "det.txt" = DataFrame df -> status r = NoImages).
Proof.
  apply (C9_no_jpg_no_output Demo.world "det.txt" "void" "out.mp4" 30 [ "notes.txt" ]).
  - reflexivity.
  - repeat constructor.
Defined.

(** C10, on the code.  The log [big.txt] has one row, on frame 1, with the
    id 2^53 + 1 and the confidence 0.9.  The table holds a colour for that
    id, and none for 2^53.  The confidence makes [iterrows] hand the row
    out as floats, in which the id is 2^53: the lookup of line 85 misses
    the table, and in the finished video the box and the label of the row
    are green, the label showing 9007199254740992. *)
Theorem C10_fallback_reached :
  let r := visualize_tracking_results Demo.world "big.txt" "img1" "out.mp4" 30 in
  let colors := build_colors Demo.big (random_state Demo.world) in
  read_csv Demo.world "big.txt" = DataFrame Demo.big /\
  map id Demo.big = [ 2 ^ 53 + 1 ] /\
  map id (iterrows Demo.big Demo.big) = [ 2 ^ 53 ] /\
  (exists c, colors !! (2 ^ 53 + 1) = Some c /\ c <> green) /\
  colors !! (2 ^ 53) = None /\
  exists wr fr rest,
    video r = Some wr /\
    written wr = fr :: rest /\
    frame_idx fr = 1 /\
    overlay fr =
      [ Rectangle (90, 190) (140, 270) green 2;
        PutText "ID: 9007199254740992" (90, 185) FONT_HERSHEY_SIMPLEX 7 green 2 ].
Proof.
  split_and!; try reflexivity.
  - eexists. split; [reflexivity|discriminate].
  - eexists _, _, _. split_and!; reflexivity.
Qed.

(** ** Further properties *)

Lemma frames_written_in_order_witness :
  StronglySorted Z.lt (map frame_idx (written Demo.closed)) /\
  Forall (fun fr => 1 <= frame_idx fr <= Z.of_nat (length Demo.img_files))
         (written Demo.closed) /\
  (forall row fr,
      In row Demo.log ->
      frame row < 1 \/ Z.of_nat (length Demo.img_files) < frame row ->
      In fr (written Demo.closed) -> frame_idx fr <> frame row).
Proof.
  apply (frames_written_in_order Demo.world "det.txt" "img1" "out.mp4" 30
           Demo.log Demo.names Demo.img_files Demo.closed).
  - reflexivity.
  - reflexivity.
  - reflexivity.
  - vm_compute. reflexivity.
Defined.

Lemma stream_starts_with_first_image_witness :
  let r := visualize_tracking_results Demo.world "det.txt" "img1" "out.mp4" 30 in
  (written Demo.closed = [] ->
   released Demo.closed = false /\ status r = DrawingError) /\
  (released Demo.closed = true -> written Demo.closed <> []) /\
  (forall fr rest,
      written Demo.closed = fr :: rest ->
      frame_idx fr = 1 /\
      frameSize Demo.closed = (width (image fr), height (image fr)) /\
      exists names img_files first,
        listdir Demo.world "img1" = Some names /\
        list_img_files names = Some img_files /\
        img_files !! 0%nat = Some first /\
        imread Demo.world (OsPath.join "img1" first) = Some (image fr)).
Proof.
  apply (stream_starts_with_first_image Demo.world "det.txt" "img1" "out.mp4" 30).
  vm_compute. reflexivity.
Defined.

Lemma fallback_colour_never_assigned_witness :
  (forall tid c,
      build_colors Demo.log (random_state Demo.world) !! tid = Some c ->
      c <> green) /\
  (forall fr op,
      In fr (written Demo.closed) -> In op (overlay fr) ->
      exists row,
        In row Demo.log /\ frame row = frame_idx fr /\
        In op (draw_row (build_colors Demo.log (random_state Demo.world))
                        (as_read Demo.log row)) /\
        (op_color op = green <->
         build_colors Demo.log (random_state Demo.world)
           !! id (as_read Demo.log row) = None) /\
        (id (as_read Demo.log row) = id row -> op_color op <> green)).
Proof.
  apply (fallback_colour_never_assigned Demo.world "det.txt" "img1" "out.mp4" 30).
  - reflexivity.
  - vm_compute. reflexivity.
Defined.

Lemma table_keys_are_log_ids_witness :
  let row := Demo.row 2 99 1 6 4 4 in
  build_colors Demo.log (random_state Demo.world) !! 99 = None /\
  draw_row (build_colors Demo.log (random_state Demo.world)) row
  = box_and_label row green.
Proof.
  intros row.
  apply (proj2 (table_keys_are_log_ids Demo.log (random_state Demo.world)) row).
  simpl. intros [H|[H|[H|[]]]]; discriminate H.
Defined.

Lemma colours_follow_first_appearance_witness :
  build_colors Demo.log (random_state Demo.world) !! 8
  = Some (nth_draw (random_state Demo.world) (3 * 1),
          nth_draw (random_state Demo.world) (3 * 1 + 1),
          nth_draw (random_state Demo.world) (3 * 1 + 2)) /\
  consumed (assign_colors (unique (map id Demo.log)) (random_state Demo.world) ∅).2
  = (consumed (random_state Demo.world) + 3 * length (unique (map id Demo.log)))%nat.
Proof.
  apply (colours_follow_first_appearance Demo.log (random_state Demo.world) 1 8).
  reflexivity.
Defined.

Lemma equal_stems_keep_listing_order_witness :
  List.filter (has_stem 1) [ "01.jpg"; "1.jpg"; "001.jpg"; "2.jpg" ]
  = List.filter (has_stem 1)
      (List.filter is_jpg [ "2.jpg"; "01.jpg"; "1.txt"; "1.jpg"; "001.jpg" ]).
Proof.
  apply (equal_stems_keep_listing_order
           [ "2.jpg"; "01.jpg"; "1.txt"; "1.jpg"; "001.jpg" ]
           [ "01.jpg"; "1.jpg"; "001.jpg"; "2.jpg" ] 1).
  reflexivity.
Defined.

Lemma stem_of_jpg_name_witness :
  is_jpg ("frame.0012" +:+ ".jpg") = true /\
  (OsPath.splitext ("frame.0012" +:+ ".jpg")).1 =
    if forallb (fun c => Ascii.eqb c ".") (PyStr.chars "frame.0012")
    then "frame.0012" +:+ ".jpg" else "frame.0012".
Proof.
  apply (stem_of_jpg_name "frame.0012").
  simpl. intros H. repeat (destruct H as [H|H]; [discriminate H|]). exact H.
Defined.

Lemma printed_integer_reads_back_witness :
  PyStr.int (PyStr.str (-12)) = Some (-12) /\
  is_jpg (PyStr.str (-12) +:+ ".jpg") = true /\
  stem_key (PyStr.str (-12) +:+ ".jpg") = Some (-12).
Proof.
  apply (printed_integer_reads_back (-12)).
  vm_compute. reflexivity.
Defined.

Lemma padded_name_key_witness :
  is_jpg ("000012" +:+ ".jpg") = true /\
  stem_key ("000012" +:+ ".jpg") = Some 12.
Proof.
  apply (padded_name_key
           (Decimal.D0 (Decimal.D0 (Decimal.D0 (Decimal.D0
              (Decimal.D1 (Decimal.D2 Decimal.Nil))))))).
  discriminate.
Defined.

Lemma gapless_numbering_witness :
  exists img_files,
    list_img_files Mot.names = Some img_files /\
    length img_files = Z.to_nat 3 /\
    (forall (i : nat) f,
        img_files !! i = Some f -> stem_key f = Some (Z.of_nat i + 1)) /\
    (forall wr fr,
        video (visualize_tracking_results Mot.world "det.txt" "img1" "out.mp4" 30)
          = Some wr ->
        In fr (written wr) ->
        exists f,
          In f Mot.names /\
          stem_key f = Some (frame_idx fr) /\
          imread Mot.world (OsPath.join "img1" f) = Some (image fr)).
Proof.
  apply (gapless_numbering Mot.world "det.txt" "img1" "out.mp4" 30 Demo.log
           Mot.names 3).
  - reflexivity.
  - reflexivity.
  - vm_compute. apply perm_swap || (eapply perm_trans; [apply perm_swap|]).
    repeat constructor.
Defined.

Lemma stray_jpg_stops_run_witness :
  let r := visualize_tracking_results
             (with_listdir Mot.world [ "000001.jpg"; "cover.jpg" ])
             "det.txt" "img1" "out.mp4" 30 in
  stem_key ("cover" +:+ ".jpg") = None /\ status r = ValueError /\
  stream r = None /\ video r = None.
Proof.
  apply (stray_jpg_stops_run (with_listdir Mot.world [ "000001.jpg"; "cover.jpg" ])
           "det.txt" "img1" "out.mp4" 30 Demo.log
           [ "000001.jpg"; "cover.jpg" ] "cover" "c"%char).
  - reflexivity.
  - reflexivity.
  - simpl. right. left. reflexivity.
  - simpl. intros H. repeat (destruct H as [H|H]; [discriminate H|]). exact H.
  - reflexivity.
  - simpl. left. reflexivity.
  - reflexivity.
Defined.

Lemma listing_order_irrelevant_witness :
  visualize_tracking_results
    (with_listdir Mot.world [ "000001.jpg"; "000002.jpg"; "000003.jpg"; "seqinfo.ini" ])
    "det.txt" "img1" "out.mp4" 30
  = visualize_tracking_results Mot.world "det.txt" "img1" "out.mp4" 30.
Proof.
  apply (listing_order_irrelevant Mot.world "det.txt" "img1" "out.mp4" 30 Mot.names).
  - reflexivity.
  - unfold Mot.names.
    eapply perm_trans; [apply perm_swap|]. apply perm_skip.
    eapply perm_trans; [apply perm_skip, perm_swap|]. apply perm_swap.
  - vm_compute. repeat constructor; simpl; intros H;
      repeat (destruct H as [H|H]; [discriminate H|]); exact H.
Defined.


Lemma drawing_error_stops_run_witness :
  let r := visualize_tracking_results Demo.world "wide.txt" "img1" "out.mp4" 30 in
  video r = None /\
  exists df names img_files wr (n : nat) f img row,
    read_csv Demo.world "wide.txt" = DataFrame df /\
    listdir Demo.world "img1" = Some names /\
    list_img_files names = Some img_files /\
    img_files !! n = Some f /\
    imread Demo.world (OsPath.join "img1" f) = Some img /\
    In row df /\ frame row = Z.of_nat n + 1 /\
    fits_int32 (as_read df row) = false /\
    stream r = Some wr /\
    released wr = false /\
    written wr
      = omap (decoded Demo.world (build_colors df (random_state Demo.world)) df
                      "img1")
             (enumerate 1 (take n img_files)) /\
    warnings r = omap (skipped Demo.world "img1") (enumerate 1 (take n img_files)).
Proof.
  apply (drawing_error_stops_run Demo.world "wide.txt" "img1" "out.mp4" 30).
  reflexivity.
Defined.
